(** * SignEcho: sign-language-to-speech front end

  A shallow embedding of the application logic of the repository:

  - [GeminiService]: [translateSignLanguageFrame], the inference client
    (services/geminiService.ts);
  - [App]: the [App] component's state, [speak], [handleFrameCapture] and
    [toggleRecording] (App.tsx), together with the event loop that
    interleaves sampling ticks with completions of the inference call;
  - [CameraView]: the camera effect of the [CameraView] component
    (components/CameraView.tsx).

  JavaScript exceptions are modelled by the [completion] monad, values
  read out of a JSON document by the type [value], React state by
  explicit state passing, and closures by the values they capture. *)

From Stdlib Require Import ZArith Lia Ascii.
From Stdlib Require String.
From stdpp Require Import base option list strings pretty.

Set Warnings "-register-all".

(** ** JavaScript values and completions *)

Module Js.

(** The values a JSON document can hold, plus [undefined], which is what
    reading an absent property gives.  The response schema of the service
    declares [confidence] an INTEGER, so numbers are integers here. *)
Inductive value : Type :=
  | Undefined
  | Null
  | Bool (b : bool)
  | Num (n : Z)
  | Str (s : string)
  | Arr (items : list value)
  | Obj (fields : list (string * value)).

Inductive exn : Type :=
  | TransportError (msg : string)
  | SyntaxError
  | TypeError.

(** Outcome of evaluating a piece of code: a value, or a thrown exception
    (a rejected promise, for asynchronous code). *)
Inductive completion (A : Type) : Type :=
  | Normal (a : A)
  | Throw (e : exn).
Global Arguments Normal {A} a.
Global Arguments Throw {A} e.

Global Instance completion_ret : MRet completion := fun A a => Normal a.
Global Instance completion_bind : MBind completion := fun A B f c =>
  match c with
  | Normal a => f a
  | Throw e => Throw e
  end.

(** [try { body } catch (error) { handler error }] *)
Definition try_catch {A} (body : completion A) (handler : exn -> completion A)
  : completion A :=
  match body with
  | Normal a => Normal a
  | Throw e => handler e
  end.

(** ToBoolean. *)
Definition truthy (v : value) : bool :=
  match v with
  | Undefined | Null => false
  | Bool b => b
  | Num n => negb (n =? 0)%Z
  | Str s => negb (bool_decide (s = ""))
  | Arr _ | Obj _ => true
  end.

(** [a || b] *)
Definition logical_or (a b : value) : value := if truthy a then a else b.

(** The own property [k] of an object whose properties are listed in
    [fields] (a key's value is its first entry); [undefined] when absent. *)
Fixpoint lookup_field (k : string) (fields : list (string * value)) : value :=
  match fields with
  | [] => Undefined
  | (k', v) :: rest => if bool_decide (k' = k) then v else lookup_field k rest
  end.

(** [v.k] for a key [k] that no prototype defines (such as [sign] and
    [confidence]): a TypeError on [null] and [undefined], the own property
    of an object, [undefined] on everything else. *)
Definition get (v : value) (k : string) : completion value :=
  match v with
  | Undefined | Null => Throw TypeError
  | Obj fields => Normal (lookup_field k fields)
  | Bool _ | Num _ | Str _ | Arr _ => Normal Undefined
  end.

(** [s.replace(/^p/, '')] for a literal [p]: [None] when [s] does not
    start with [p]. *)
Fixpoint strip_prefix (p s : string) : option string :=
  match p, s with
  | EmptyString, _ => Some s
  | String a p', String b s' =>
      if bool_decide (a = b) then strip_prefix p' s' else None
  | String _ _, EmptyString => None
  end.

End Js.

(** ** services/geminiService.ts *)

Module GeminiService.
Import Js.

(** What the promise of [translateSignLanguageFrame] resolves to. *)
Record Reply : Type := { text : value; confidence : value }.

(** The part of the service's response the client reads: [response.text],
    a string or [undefined]. *)
Record GenerateContentResponse : Type := { response_text : option string }.

Definition sentinel : Reply := {| text := Str "..."; confidence := Num 0 |}.

(** [base64Image.replace(/^data:image\/(png|jpeg|jpg);base64,/, '')] *)
Definition clean (base64Image : string) : string :=
  match strip_prefix "data:image/png;base64," base64Image with
  | Some rest => rest
  | None =>
      match strip_prefix "data:image/jpeg;base64," base64Image with
      | Some rest => rest
      | None =>
          match strip_prefix "data:image/jpg;base64," base64Image with
          | Some rest => rest
          | None => base64Image
          end
      end
  end.

Section Client.
(** The two platform calls of the client: the request to the model (given
    the cleaned image) and [JSON.parse].  Either may throw. *)
Variable generateContent : string -> completion GenerateContentResponse.
Variable JSON_parse : string -> completion value.

Definition translate_body (base64Image : string) : completion Reply :=
  let cleanBase64 := clean base64Image in
  response ← generateContent cleanBase64;
  match response_text response with
  | None | Some "" => Normal sentinel            (* if (!jsonText) *)
  | Some jsonText =>
      result ← JSON_parse jsonText;
      sign ← get result "sign";
      conf ← get result "confidence";
      Normal {| text := logical_or sign (Str "...");
                confidence := logical_or conf (Num 0) |}
  end.

Definition translateSignLanguageFrame (base64Image : string)
  : completion Reply :=
  try_catch (translate_body base64Image)
            (fun _error => (* console.error *) Normal sentinel).
End Client.

(** The reply as the caller's type annotation reads it:
    [{ text: string; confidence: number }]. *)
Definition typed (r : Reply) : option (string * Z) :=
  match text r, confidence r with
  | Str s, Num n => Some (s, n)
  | _, _ => None
  end.

End GeminiService.

(** ** types.ts *)

Module TranslationResult.
Record t : Type := { text : string; confidence : Z; timestamp : Z }.
End TranslationResult.

Module ChartDataPoint.
Record t : Type := { name : string; confidence : Z }.
End ChartDataPoint.

(** ** App.tsx *)

Module App.
Import Js.

(** What [formatTime] reads off [new Date()]. *)
Record Date : Type := { getHours : nat; getMinutes : nat; getSeconds : nat }.

(** [s.padStart(targetLength, c)] for a one-character pad string. *)
Definition padStart (targetLength : nat) (c : ascii) (s : string) : string :=
  String.string_of_list_ascii (replicate (targetLength - String.length s) c)
    +:+ s.

Definition two_digits (n : nat) : string := padStart 2 "0"%char (pretty n).

Definition formatTime (d : Date) : string :=
  two_digits (getHours d) +:+ ":" +:+ two_digits (getMinutes d) +:+ ":"
    +:+ two_digits (getSeconds d).

(** The component's state: the five [useState] cells and the
    [isProcessingRef] ref. *)
Record State : Type := {
  isActive : bool;
  isMuted : bool;
  currentSign : string;
  sentence : list string;
  confidenceHistory : list ChartDataPoint.t;
  isProcessingRef : bool
}.

(** [Array(10).fill({ name: '', confidence: 0 })] *)
Definition blank_history : list ChartDataPoint.t :=
  replicate 10 {| ChartDataPoint.name := ""; ChartDataPoint.confidence := 0 |}.

Definition initial : State :=
  {| isActive := false; isMuted := false; currentSign := "...";
     sentence := []; confidenceHistory := blank_history;
     isProcessingRef := false |}.

(** Calls that leave the component, in program order.  [Speak] records
    that the [speak] handler was entered; [SynthCancel] and [SynthSpeak]
    are the two calls it makes on [window.speechSynthesis]. *)
Inductive Call : Type :=
  | SetProcessing (b : bool)
  | Translate (base64Image : string)
  | Speak (text : string)
  | SynthCancel
  | SynthSpeak (text : string)
  | ConsoleError.

(** An inference call that was issued and has not settled.  [speak_muted]
    is the [isMuted] that the [speak] closure of the issuing render holds. *)
Record Request : Type := { image : string; speak_muted : bool }.

Record System : Type := {
  app : State;
  pending : list Request;
  calls : list Call
}.

Definition boot : System := {| app := initial; pending := []; calls := [] |}.

(** Handlers run to completion on the event loop: a state monad. *)
Definition Handler (A : Type) : Type := System -> A * System.

Global Instance handler_ret : MRet Handler := fun A a s => (a, s).
Global Instance handler_bind : MBind Handler := fun A B f m s =>
  let '(a, s') := m s in f a s'.

Definition exec {A} (m : Handler A) (s : System) : System := snd (m s).

Definition modify_app (f : State -> State) : Handler unit := fun s =>
  (tt, {| app := f (app s); pending := pending s; calls := calls s |}).

Definition emit (c : Call) : Handler unit := fun s =>
  (tt, {| app := app s; pending := pending s; calls := calls s ++ [c] |}).

Definition read_isProcessing : Handler bool := fun s =>
  (isProcessingRef (app s), s).

Definition write_isProcessing (b : bool) : Handler unit :=
  modify_app (fun st =>
    {| isActive := isActive st; isMuted := isMuted st;
       currentSign := currentSign st; sentence := sentence st;
       confidenceHistory := confidenceHistory st; isProcessingRef := b |}) ;;
  emit (SetProcessing b).

(** A state update between the [set...] call that queues it and the render
    that runs it.  The [set...] functions below build such updates; nothing
    happens to the state until [render] runs them. *)
Definition Update : Type := Handler unit.

Definition setIsActive (b : bool) : Update :=
  modify_app (fun st =>
    {| isActive := b; isMuted := isMuted st;
       currentSign := currentSign st; sentence := sentence st;
       confidenceHistory := confidenceHistory st;
       isProcessingRef := isProcessingRef st |}).

Definition setIsMuted (b : bool) : Update :=
  modify_app (fun st =>
    {| isActive := isActive st; isMuted := b;
       currentSign := currentSign st; sentence := sentence st;
       confidenceHistory := confidenceHistory st;
       isProcessingRef := isProcessingRef st |}).

Definition setCurrentSign (text : string) : Update :=
  modify_app (fun st =>
    {| isActive := isActive st; isMuted := isMuted st;
       currentSign := text; sentence := sentence st;
       confidenceHistory := confidenceHistory st;
       isProcessingRef := isProcessingRef st |}).

(** [setConfidenceHistory(updater)] *)
Definition setConfidenceHistory
    (updater : list ChartDataPoint.t -> list ChartDataPoint.t) : Update :=
  modify_app (fun st =>
    {| isActive := isActive st; isMuted := isMuted st;
       currentSign := currentSign st; sentence := sentence st;
       confidenceHistory := updater (confidenceHistory st);
       isProcessingRef := isProcessingRef st |}).

(** [setSentence(updater)]: the updater is called by the render that runs
    the update, on the sentence as it is then, and makes its own calls
    then. *)
Definition setSentence
    (updater : list string -> Handler (list string)) : Update :=
  fun s =>
    let '(next, s') := updater (sentence (app s)) s in
    modify_app (fun st =>
      {| isActive := isActive st; isMuted := isMuted st;
         currentSign := currentSign st; sentence := next;
         confidenceHistory := confidenceHistory st;
         isProcessingRef := isProcessingRef st |}) s'.

(** The render that follows a handler: the updates the handler queued are
    run, oldest first.  (No handler of the component queues two updates of
    one cell, so the order in which a render visits the cells does not
    show.) *)
Definition render (queued : list Update) : Handler unit := fun s =>
  (tt, fold_left (fun s u => exec u s) queued s).

(** The inference call is issued: it joins the pending calls. *)
Definition issue (r : Request) : Handler unit := fun s =>
  (tt, {| app := app s; pending := pending s ++ [r];
          calls := calls s ++ [Translate (image r)] |}).

(** [speak], as closed over a given [isMuted]. *)
Definition speak (muted : bool) (text : string) : Handler unit :=
  emit (Speak text) ;;
  if muted || bool_decide (text = "") || bool_decide (text = "...")
  then mret tt
  else
    emit SynthCancel ;;
    emit (SynthSpeak text).

(** The updater [handleFrameCapture] passes to [setSentence]. *)
Definition append_word (muted : bool) (text : string) (prev : list string)
  : Handler (list string) :=
  let lastWord := last prev in
  if bool_decide (lastWord ≠ Some text) then
    speak muted text ;;
    mret (prev ++ [text])
  else mret prev.

(** The updater [handleFrameCapture] passes to [setConfidenceHistory]. *)
Definition slide (d : Date) (confidence : Z) (prev : list ChartDataPoint.t)
  : list ChartDataPoint.t :=
  drop 1 prev ++ [ {| ChartDataPoint.name := formatTime d;
                      ChartDataPoint.confidence := confidence |} ].

(** [handleFrameCapture] up to its [await]. *)
Definition handleFrameCapture_begin (base64Image : string) : Handler unit :=
  busy ← read_isProcessing;
  if busy : bool then mret tt
  else
    write_isProcessing true ;;
    muted ← (fun s => (isMuted (app s), s));
    issue {| image := base64Image; speak_muted := muted |}.

(** The rest of the [try] block of [handleFrameCapture] once the awaited
    call has settled, and its [catch] block: the state updates are queued,
    in the order of the [set...] calls, and returned.  [muted] is the
    [isMuted] held by the [speak] this [handleFrameCapture] closed over. *)
Definition handleFrameCapture_try (muted : bool)
    (response : completion (string * Z)) (now : Z) (d : Date)
  : Handler (list Update) :=
  match response with
  | Normal (text, confidence) =>
      let result :=
        {| TranslationResult.text := text;
           TranslationResult.confidence := confidence;
           TranslationResult.timestamp := now |} in
      mret
        ([ setCurrentSign (TranslationResult.text result);
           setConfidenceHistory
             (slide d (TranslationResult.confidence result)) ]
         ++ if bool_decide (TranslationResult.text result ≠ "...")
               && bool_decide (TranslationResult.confidence result > 60)%Z
            then [ setSentence
                     (append_word muted (TranslationResult.text result)) ]
            else [])
  | Throw _ => emit ConsoleError ;; mret []
  end.

(** [handleFrameCapture] from the point where the awaited call has settled,
    normally with a reply or by throwing: the [try] or [catch] block, the
    [finally] block, which clears the flag, and then the render, in which
    the queued updates run and the updater of [setSentence] calls
    [speak]. *)
Definition handleFrameCapture_resume (muted : bool)
    (response : completion (string * Z)) (now : Z) (d : Date) : Handler unit :=
  queued ← handleFrameCapture_try muted response now d;
  write_isProcessing false ;;
  render queued.

(** [toggleRecording], with the render that follows the click. *)
Definition toggleRecording : Handler unit :=
  active ← (fun s => (isActive (app s), s));
  render
    ([ setIsActive (negb active) ]
     ++ if negb active then
          [ setSentence (fun _ => mret []);
            setConfidenceHistory (fun _ => blank_history) ]
        else []).

(** The mute button: [setIsMuted(!isMuted)], with the render that follows. *)
Definition toggleMute : Handler unit :=
  muted ← (fun s => (isMuted (app s), s));
  render [ setIsMuted (negb muted) ].

(** The Clear button: [setSentence([])], with the render that follows. *)
Definition clearSentence : Handler unit :=
  render [ setSentence (fun _ => mret []) ].

(** What can happen to the component. *)
Inductive Event : Type :=
  | Tick (base64Image : string)
  | Settle (n : nat) (response : completion (string * Z)) (now : Z) (d : Date)
  | ToggleRecording
  | ToggleMute
  | ClearSentence.

(** The [n]-th pending call settles: it leaves the pending calls and
    [handleFrameCapture] resumes.  No such call: nothing happens. *)
Definition settle (n : nat) (response : completion (string * Z)) (now : Z)
    (d : Date) : Handler unit := fun s =>
  match pending s !! n with
  | None => (tt, s)
  | Some req =>
      handleFrameCapture_resume (speak_muted req) response now d
        {| app := app s; pending := delete n (pending s); calls := calls s |}
  end.

Definition handle (e : Event) : Handler unit :=
  match e with
  | Tick base64Image => handleFrameCapture_begin base64Image
  | Settle n response now d => settle n response now d
  | ToggleRecording => toggleRecording
  | ToggleMute => toggleMute
  | ClearSentence => clearSentence
  end.

Definition step (s : System) (e : Event) : System := exec (handle e) s.

Definition run (es : list Event) (s : System) : System := fold_left step es s.

(** The busy flag tells whether a call is pending, and then there is one. *)
Definition single_flight (s : System) : Prop :=
  if isProcessingRef (app s) then exists r, pending s = [r]
  else pending s = [].

(** A settled call as [handleFrameCapture] sees it: the reply or the
    exception, and the two clock readings ([Date.now()], [new Date()]). *)
Record Arrival : Type := {
  response : completion (string * Z);
  now : Z;
  date : Date
}.

Definition arrive (text : string) (confidence : Z) (now : Z) (d : Date)
  : Arrival :=
  {| response := Normal (text, confidence); now := now; date := d |}.

(** The point [handleFrameCapture] puts on the chart for an arrival: none
    when the call threw. *)
Definition point_of (a : Arrival) : option ChartDataPoint.t :=
  match response a with
  | Normal (_, confidence) =>
      Some {| ChartDataPoint.name := formatTime (date a);
              ChartDataPoint.confidence := confidence |}
  | Throw _ => None
  end.

(** The arrivals are handled one after the other, all with the same [speak]. *)
Definition process (muted : bool) (arrivals : list Arrival) (s : System)
  : System :=
  fold_left
    (fun s a => exec (handleFrameCapture_resume muted (response a) (now a)
                        (date a)) s)
    arrivals s.

(** Calls on [window.speechSynthesis]. *)
Definition is_synth (c : Call) : bool :=
  match c with
  | SynthCancel | SynthSpeak _ => true
  | _ => false
  end.

(** Everything about the system except the mute flag, the copies of it that
    pending calls hold, and the calls on [window.speechSynthesis]. *)
Record View : Type := {
  view_isActive : bool;
  view_currentSign : string;
  view_sentence : list string;
  view_confidenceHistory : list ChartDataPoint.t;
  view_isProcessing : bool;
  view_pending : list string;
  view_calls : list Call
}.

Definition view (s : System) : View :=
  {| view_isActive := isActive (app s);
     view_currentSign := currentSign (app s);
     view_sentence := sentence (app s);
     view_confidenceHistory := confidenceHistory (app s);
     view_isProcessing := isProcessingRef (app s);
     view_pending := image <$> pending s;
     view_calls := filter (fun c => is_synth c = false) (calls s) |}.

End App.

(** ** components/CameraView.tsx *)

Module CameraView.

Definition MediaStreamTrack : Type := nat.

Record MediaStream : Type := { getTracks : list MediaStreamTrack }.

(** The two [useState] cells, [videoRef.current.srcObject], the [stream]
    binding that the cleanup function of the mount effect closed over, and
    the tracks on which [stop()] has been called. *)
Record State : Type := {
  stream : option MediaStream;
  error : option string;
  srcObject : option MediaStream;
  cleanup_stream : option MediaStream;
  stopped : list MediaStreamTrack
}.

(** First render, then the mount effect (dependency list [[]], so it runs
    once): [startCamera()] is called and the cleanup function is created in
    the scope of this render, where [stream] is the initial [null]. *)
Definition mount : State :=
  let stream0 : option MediaStream := None in
  {| stream := stream0; error := None; srcObject := None;
     cleanup_stream := stream0; stopped := [] |}.

(** [getUserMedia] resolves: the rest of the [try] block of [startCamera]. *)
Definition camera_granted (mediaStream : MediaStream) (st : State) : State :=
  {| stream := Some mediaStream; error := None;
     srcObject := Some mediaStream;
     cleanup_stream := cleanup_stream st; stopped := stopped st |}.

(** [getUserMedia] rejects: the [catch] block of [startCamera]. *)
Definition camera_denied (st : State) : State :=
  {| stream := stream st;
     error := Some "Unable to access camera. Please ensure permissions are granted.";
     srcObject := srcObject st;
     cleanup_stream := cleanup_stream st; stopped := stopped st |}.

(** Unmount: the cleanup function of the mount effect runs. *)
Definition unmount (st : State) : State :=
  match cleanup_stream st with
  | Some s =>
      {| stream := stream st; error := error st; srcObject := srcObject st;
         cleanup_stream := cleanup_stream st;
         stopped := stopped st ++ getTracks s |}
  | None => st
  end.

(** How the one [getUserMedia] call of [startCamera] can end. *)
Inductive Event : Type :=
  | Granted (mediaStream : MediaStream)
  | Denied.

Definition step (st : State) (e : Event) : State :=
  match e with
  | Granted mediaStream => camera_granted mediaStream st
  | Denied => camera_denied st
  end.

Definition run (es : list Event) (st : State) : State := fold_left step es st.

(** The guard of the capture loop: [isActive && stream && !error]. *)
Definition capturing (isActive : bool) (st : State) : bool :=
  isActive && bool_decide (is_Some (stream st)) && bool_decide (error st = None).

End CameraView.

(** ** Concrete inputs *)

Module Sample.
Import Js.

Definition noon : App.Date :=
  {| App.getHours := 12; App.getMinutes := 0; App.getSeconds := 0 |}.

(** A service that is unreachable. *)
Definition offline (_ : string) : completion GeminiService.GenerateContentResponse :=
  Throw (TransportError "fetch failed").

(** A service that answers with the given body. *)
Definition answering (body : option string) (_ : string)
  : completion GeminiService.GenerateContentResponse :=
  Normal {| GeminiService.response_text := body |}.

(** A stand-in for [JSON.parse], defined on four documents (spelled here
    without their quotation marks) and throwing on every other text. *)
Definition parse_known (s : string) : completion value :=
  if bool_decide (s = "null") then Normal Null
  else if bool_decide (s = "{}") then Normal (Obj [])
  else if bool_decide (s = "{sign:A,confidence:90}")
       then Normal (Obj [("sign", Str "A"); ("confidence", Num 90)])
  else if bool_decide (s = "{sign:,confidence:90}")
       then Normal (Obj [("sign", Str ""); ("confidence", Num 90)])
  else Throw SyntaxError.

(** The booted component with the mute button already pressed. *)
Definition muted_boot : App.System := App.step App.boot App.ToggleMute.

Definition webcam : CameraView.MediaStream :=
  {| CameraView.getTracks := [1; 2] |}.

End Sample.

(** ** What the page shows and what the call log tells *)

Module Observe.
Import App.

(** [confidenceHistory[confidenceHistory.length - 1]?.confidence], the
    "Model Confidence" readout of the page; [None] is [undefined]. *)
Definition shown_confidence (st : State) : option Z :=
  ChartDataPoint.confidence <$> last (confidenceHistory st).

(** The texts [speak] was called with, oldest first. *)
Definition spoken (cs : list Call) : list string :=
  omap (fun c => match c with Speak text => Some text | _ => None end) cs.

Definition is_translate (c : Call) : bool :=
  match c with Translate _ => true | _ => false end.

Definition is_set (b : bool) (c : Call) : bool :=
  match c with SetProcessing b' => Bool.eqb b' b | _ => false end.

Definition count (p : Call -> bool) (cs : list Call) : nat :=
  length (filter (fun c => p c = true) cs).

(** No word is directly followed by itself. *)
Definition no_repeat (l : list string) : Prop :=
  forall i x, l !! i = Some x -> l !! S i ≠ Some x.

(** Every utterance given to the synthesizer is a real word, and the two
    calls just before it are the [speak] of that word and the cancelling of
    whatever was being said. *)
Definition cancel_then_speak (cs : list Call) : Prop :=
  forall i text,
    cs !! i = Some (SynthSpeak text) ->
    text ≠ "" /\ text ≠ "..." /\
    exists j, i = S (S j) /\ cs !! j = Some (Speak text)
              /\ cs !! S j = Some SynthCancel.

(** The character of a decimal digit. *)
Definition digit (n : nat) : ascii := ascii_of_nat (48 + n).

(** The three headers the client's regular expression removes. *)
Definition headers : list string :=
  ["data:image/png;base64,"; "data:image/jpeg;base64,";
   "data:image/jpg;base64,"].

End Observe.

(** ** The page: the component with its camera view *)

Module Page.

Record State : Type := { system : App.System; camera : CameraView.State }.

Definition boot : State :=
  {| system := App.boot; camera := CameraView.mount |}.

(** What can happen on the page.  [Timer] is a firing of the interval of
    the capture loop, with the frame the canvas gives at that moment; the
    interval exists while the guard of the loop holds. *)
Inductive Event : Type :=
  | Timer (frame : string)
  | Settled (n : nat) (response : Js.completion (string * Z)) (now : Z)
      (d : App.Date)
  | PressStart
  | PressMute
  | PressClear
  | Camera (e : CameraView.Event).

Definition on_system (f : App.System -> App.System) (p : State) : State :=
  {| system := f (system p); camera := camera p |}.

Definition step (p : State) (e : Event) : State :=
  match e with
  | Timer frame =>
      if CameraView.capturing (App.isActive (App.app (system p))) (camera p)
      then on_system (fun s => App.step s (App.Tick frame)) p
      else p
  | Settled n response now d =>
      on_system (fun s => App.step s (App.Settle n response now d)) p
  | PressStart => on_system (fun s => App.step s App.ToggleRecording) p
  | PressMute => on_system (fun s => App.step s App.ToggleMute) p
  | PressClear => on_system (fun s => App.step s App.ClearSentence) p
  | Camera e =>
      {| system := system p; camera := CameraView.step (camera p) e |}
  end.

Definition run (es : list Event) (p : State) : State := fold_left step es p.

Definition is_start (e : Event) : bool :=
  match e with PressStart => true | _ => false end.

Definition is_granted (e : Event) : bool :=
  match e with Camera (CameraView.Granted _) => true | _ => false end.

End Page.

(** * Properties *)

(** ** The inference client *)

Module GeminiServiceSpec.
Import Js GeminiService.

Section Client.
Variable generateContent : string -> completion GenerateContentResponse.
Variable JSON_parse : string -> completion value.

Local Abbreviation translate := (translateSignLanguageFrame generateContent JSON_parse).
Local Abbreviation body := (translate_body generateContent JSON_parse).

Lemma translate_caught base64Image e :
  body base64Image = Throw e -> translate base64Image = Normal sentinel.
Proof. unfold translateSignLanguageFrame. intros ->. reflexivity. Qed.

Lemma translate_passed base64Image r :
  body base64Image = Normal r -> translate base64Image = Normal r.
Proof. unfold translateSignLanguageFrame. intros ->. reflexivity. Qed.

Lemma translate_total base64Image :
  exists r, translate base64Image = Normal r.
Proof.
  destruct (body base64Image) as [r|e] eqn:E.
  - exists r. by apply translate_passed.
  - exists sentinel. by apply (translate_caught _ e).
Qed.

(** The body's three ways of finishing normally. *)
Lemma body_normal base64Image r :
  body base64Image = Normal r ->
  r = sentinel \/
  exists jsonText result sign conf,
    JSON_parse jsonText = Normal result /\
    get result "sign" = Normal sign /\
    get result "confidence" = Normal conf /\
    r = {| text := logical_or sign (Str "...");
           confidence := logical_or conf (Num 0) |}.
Proof.
  unfold translate_body.
  destruct (generateContent (clean base64Image)) as [resp|e]; [|discriminate].
  cbn. destruct (response_text resp) as [[|a jsonText]|].
  - intros [= <-]. by left.
  - destruct (JSON_parse (String a jsonText)) as [result|e] eqn:Ep; [|discriminate].
    cbn. destruct (get result "sign") as [sign|e] eqn:Es; [|discriminate].
    cbn. destruct (get result "confidence") as [conf|e] eqn:Ec; [|discriminate].
    cbn. intros [= <-]. right. by exists (String a jsonText), result, sign, conf.
  - intros [= <-]. by left.
Qed.

Lemma or_truthy a b : truthy b = true -> truthy (logical_or a b) = true.
Proof. unfold logical_or. by destruct (truthy a) eqn:E. Qed.

Lemma or_falsy a b : truthy a = false -> logical_or a b = b.
Proof. unfold logical_or. by intros ->. Qed.

Lemma or_cases a b : (truthy a = true /\ logical_or a b = a) \/ (truthy a = false /\ logical_or a b = b).
Proof. unfold logical_or. destruct (truthy a); auto. Qed.

Lemma get_both v k a k' : get v k = Normal a -> exists b, get v k' = Normal b.
Proof. destruct v; cbn; try discriminate; eauto. Qed.

Lemma body_parsed base64Image resp jsonText result sign conf :
  generateContent (clean base64Image) = Normal resp ->
  response_text resp = Some jsonText ->
  jsonText <> "" ->
  JSON_parse jsonText = Normal result ->
  get result "sign" = Normal sign ->
  get result "confidence" = Normal conf ->
  body base64Image
  = Normal {| text := logical_or sign (Str "...");
              confidence := logical_or conf (Num 0) |}.
Proof.
  intros Hg Ht Hne Hp Hs Hc. unfold translate_body. rewrite Hg. cbn.
  rewrite Ht. destruct jsonText as [|a rest]; [done|].
  rewrite Hp. cbn. rewrite Hs. cbn. rewrite Hc. reflexivity.
Qed.

Lemma body_no_text base64Image resp :
  generateContent (clean base64Image) = Normal resp ->
  response_text resp = None \/ response_text resp = Some "" ->
  body base64Image = Normal sentinel.
Proof.
  intros Hg Ht. unfold translate_body. rewrite Hg. cbn.
  by destruct Ht as [-> | ->].
Qed.

Lemma reply_truthy base64Image r :
  translate base64Image = Normal r -> truthy (text r) = true.
Proof.
  unfold translateSignLanguageFrame.
  destruct (body base64Image) as [r'|e] eqn:E; cbn.
  - intros [= <-]. apply body_normal in E as [-> | (?&?&?&?&_&_&_&->)]; [done|].
    cbn. by apply or_truthy.
  - by intros [= <-].
Qed.

(** C10: the reply's label is never the empty string.  The client always
    resolves; its [text] is truthy, so not [""]; a response without a body
    (absent or empty) gives the sentinel reply; a [sign] that is falsy
    (absent, [null], [false], [0] or the empty string) is replaced by
    ["..."], and a [confidence] that is falsy by [0]. *)
Theorem reply_is_normalized base64Image :
  exists r,
    translate base64Image = Normal r /\
    text r <> Str "" /\
    truthy (text r) = true /\
    (forall resp,
        generateContent (clean base64Image) = Normal resp ->
        response_text resp = None \/ response_text resp = Some "" ->
        r = sentinel) /\
    (forall resp jsonText result sign,
        generateContent (clean base64Image) = Normal resp ->
        response_text resp = Some jsonText -> jsonText <> "" ->
        JSON_parse jsonText = Normal result ->
        get result "sign" = Normal sign ->
        truthy sign = false ->
        text r = Str "...") /\
    (forall resp jsonText result conf,
        generateContent (clean base64Image) = Normal resp ->
        response_text resp = Some jsonText -> jsonText <> "" ->
        JSON_parse jsonText = Normal result ->
        get result "confidence" = Normal conf ->
        truthy conf = false ->
        confidence r = Num 0) /\
    (forall fields,
        lookup_field "sign" fields = Undefined ->
        get (Obj fields) "sign" = Normal Undefined) /\
    Forall (fun v => truthy v = false)
           [Undefined; Null; Bool false; Num 0; Str ""].
Proof.
  destruct (translate_total base64Image) as [r Hr]. exists r.
  split; [exact Hr|].
  pose proof (reply_truthy _ _ Hr) as Ht.
  split; [by intros E; rewrite E in Ht|].
  split; [exact Ht|].
  split; [|split; [|split; [|split]]].
  - intros resp Hg Hb. pose proof (body_no_text _ _ Hg Hb) as Hbody.
    apply translate_passed in Hbody. congruence.
  - intros resp jsonText result sign Hg Hj Hne Hp Hs Hf.
    destruct (get_both _ _ _ "confidence" Hs) as [conf Hc].
    pose proof (body_parsed _ _ _ _ _ _ Hg Hj Hne Hp Hs Hc) as Hbody.
    apply translate_passed in Hbody. rewrite Hbody in Hr.
    injection Hr as <-. cbn. by apply or_falsy.
  - intros resp jsonText result conf Hg Hj Hne Hp Hc Hf.
    destruct (get_both _ _ _ "sign" Hc) as [sign Hs].
    pose proof (body_parsed _ _ _ _ _ _ Hg Hj Hne Hp Hs Hc) as Hbody.
    apply translate_passed in Hbody. rewrite Hbody in Hr.
    injection Hr as <-. cbn. by apply or_falsy.
  - intros fields E. cbn. by rewrite E.
  - repeat constructor.
Qed.

End Client.

(** On a response whose [sign] is the empty string the label is ["..."]. *)
Lemma reply_is_normalized_witness :
  exists r,
    translateSignLanguageFrame
      (Sample.answering (Some "{sign:,confidence:90}")) Sample.parse_known "frame"
    = Normal r /\
    text r = Str "...".
Proof.
  destruct (reply_is_normalized
              (Sample.answering (Some "{sign:,confidence:90}"))
              Sample.parse_known "frame")
    as (r & Hr & _ & _ & _ & Hsign & _).
  exists r. split; [exact Hr|].
  eapply (Hsign _ "{sign:,confidence:90}" _ (Str ""));
    [reflexivity | reflexivity | discriminate | reflexivity | reflexivity
    | reflexivity].
Defined.

End GeminiServiceSpec.

(** ** The component *)

Module AppSpec.
Import Js App.

(** *** What [handleFrameCapture] does with a reply *)

Lemma speak_exec muted text s :
  speak muted text s
  = (tt, {| app := app s; pending := pending s;
            calls := calls s ++ Speak text ::
              (if muted || bool_decide (text = "") || bool_decide (text = "...")
               then [] else [SynthCancel; SynthSpeak text]) |}).
Proof.
  unfold speak, mbind, handler_bind, emit. cbn.
  destruct (muted || _ || _); cbn; [reflexivity|].
  by rewrite <- !app_assoc.
Qed.

Lemma append_word_exec muted text prev s :
  append_word muted text prev s
  = if bool_decide (last prev ≠ Some text)
    then (prev ++ [text], snd (speak muted text s))
    else (prev, s).
Proof.
  unfold append_word. case_bool_decide; [|reflexivity].
  unfold mbind, handler_bind. by rewrite speak_exec.
Qed.

(** The whole effect of a reply on the system. *)
Lemma resume_exec_normal muted text confidence now d s :
  exec (handleFrameCapture_resume muted (Normal (text, confidence)) now d) s
  = let accept :=
      bool_decide (text ≠ "...") && bool_decide (confidence > 60)%Z
      && bool_decide (last (sentence (app s)) ≠ Some text) in
    {| app :=
         {| isActive := isActive (app s); isMuted := isMuted (app s);
            currentSign := text;
            sentence :=
              if accept then sentence (app s) ++ [text] else sentence (app s);
            confidenceHistory := slide d confidence (confidenceHistory (app s));
            isProcessingRef := false |};
       pending := pending s;
       calls :=
         calls s
         ++ [SetProcessing false]
         ++ (if accept
             then Speak text ::
                    (if muted || bool_decide (text = "")
                        || bool_decide (text = "...")
                     then [] else [SynthCancel; SynthSpeak text])
             else []) |}.
Proof.
  unfold handleFrameCapture_resume, handleFrameCapture_try, exec, render,
    write_isProcessing, mbind, handler_bind, mret, handler_ret.
  cbn.
  destruct (bool_decide (text ≠ "...") && bool_decide (confidence > 60)%Z);
    cbn; [|reflexivity].
  unfold exec, setSentence. rewrite append_word_exec, speak_exec. cbn.
  case_bool_decide; cbn; [|reflexivity].
  by rewrite <- app_assoc.
Qed.

(** The whole effect of a failed call on the system. *)
Lemma resume_exec_throw muted e now d s :
  exec (handleFrameCapture_resume muted (Throw e) now d) s
  = {| app :=
         {| isActive := isActive (app s); isMuted := isMuted (app s);
            currentSign := currentSign (app s);
            sentence := sentence (app s);
            confidenceHistory := confidenceHistory (app s);
            isProcessingRef := false |};
       pending := pending s;
       calls := calls s ++ [ConsoleError; SetProcessing false] |}.
Proof.
  unfold handleFrameCapture_resume, handleFrameCapture_try, exec, render,
    write_isProcessing, mbind, handler_bind, mret, handler_ret.
  cbn. by rewrite <- app_assoc.
Qed.

Lemma begin_exec base64Image s :
  exec (handleFrameCapture_begin base64Image) s
  = if isProcessingRef (app s) then s
    else
      {| app :=
           {| isActive := isActive (app s); isMuted := isMuted (app s);
              currentSign := currentSign (app s);
              sentence := sentence (app s);
              confidenceHistory := confidenceHistory (app s);
              isProcessingRef := true |};
         pending :=
           pending s
           ++ [ {| image := base64Image; speak_muted := isMuted (app s) |} ];
         calls := calls s ++ [SetProcessing true; Translate base64Image] |}.
Proof.
  unfold handleFrameCapture_begin, exec, read_isProcessing. cbn.
  unfold mbind, handler_bind. cbn.
  destruct (isProcessingRef (app s)); cbn; [reflexivity|].
  unfold write_isProcessing, mbind, handler_bind. cbn.
  by rewrite <- app_assoc.
Qed.

Lemma toggle_exec s :
  exec toggleRecording s
  = {| app :=
         {| isActive := negb (isActive (app s)); isMuted := isMuted (app s);
            currentSign := currentSign (app s);
            sentence := if isActive (app s) then sentence (app s) else [];
            confidenceHistory :=
              if isActive (app s) then confidenceHistory (app s)
              else blank_history;
            isProcessingRef := isProcessingRef (app s) |};
       pending := pending s;
       calls := calls s |}.
Proof.
  unfold toggleRecording, exec, render, mbind, handler_bind. cbn.
  by destruct (isActive (app s)).
Qed.

Lemma settle_exec n response now d s :
  exec (settle n response now d) s
  = match pending s !! n with
    | None => s
    | Some req =>
        exec (handleFrameCapture_resume (speak_muted req) response now d)
          {| app := app s; pending := delete n (pending s); calls := calls s |}
    end.
Proof. unfold exec, settle. by destruct (pending s !! n). Qed.

Lemma slide_length d confidence h :
  h ≠ [] -> length (slide d confidence h) = length h.
Proof.
  intros Hne. unfold slide. rewrite length_app, length_drop. cbn.
  destruct h; [done|]. cbn. lia.
Qed.

Lemma process_cons muted a arrivals s :
  process muted (a :: arrivals) s
  = process muted arrivals
      (exec (handleFrameCapture_resume muted (response a) (now a) (date a)) s).
Proof. reflexivity. Qed.

Lemma process_nil muted s : process muted [] s = s.
Proof. reflexivity. Qed.

Lemma mute_exec s :
  exec toggleMute s
  = {| app :=
         {| isActive := isActive (app s); isMuted := negb (isMuted (app s));
            currentSign := currentSign (app s);
            sentence := sentence (app s);
            confidenceHistory := confidenceHistory (app s);
            isProcessingRef := isProcessingRef (app s) |};
       pending := pending s;
       calls := calls s |}.
Proof. reflexivity. Qed.

Lemma clear_exec s :
  exec clearSentence s
  = {| app :=
         {| isActive := isActive (app s); isMuted := isMuted (app s);
            currentSign := currentSign (app s);
            sentence := [];
            confidenceHistory := confidenceHistory (app s);
            isProcessingRef := isProcessingRef (app s) |};
       pending := pending s;
       calls := calls s |}.
Proof. reflexivity. Qed.

(** Flag and pending calls after [handleFrameCapture] has resumed. *)
Lemma resume_clears muted response now d s :
  let s' := exec (handleFrameCapture_resume muted response now d) s in
  isProcessingRef (app s') = false /\ pending s' = pending s /\
  SetProcessing false ∈ drop (length (calls s)) (calls s').
Proof.
  destruct response as [[text confidence]|e].
  - rewrite resume_exec_normal. cbn. repeat split.
    rewrite drop_app_length. apply elem_of_cons. by left.
  - rewrite resume_exec_throw. cbn. repeat split.
    rewrite drop_app_length. apply elem_of_cons. right.
    apply elem_of_cons. by left.
Qed.

(** *** Single flight *)

Lemma boot_single_flight : single_flight boot.
Proof. reflexivity. Qed.

Lemma step_single_flight s e : single_flight s -> single_flight (step s e).
Proof.
  unfold single_flight, step. intros Hs. destruct e as [img|n r now d| | |];
    cbn [handle].
  - rewrite begin_exec. destruct (isProcessingRef (app s)) eqn:Hb.
    + by rewrite Hb.
    + cbn. rewrite Hs. by eexists.
  - rewrite settle_exec. destruct (pending s !! n) as [req|] eqn:Hn; [|done].
    destruct (resume_clears (speak_muted req) r now d
                {| app := app s; pending := delete n (pending s);
                   calls := calls s |}) as (-> & -> & _).
    cbn. destruct (isProcessingRef (app s)).
    + destruct Hs as [r0 Hs]. rewrite Hs in Hn |- *.
      destruct n; [done|]. by destruct n.
    + by rewrite Hs in Hn.
  - by rewrite toggle_exec.
  - by rewrite mute_exec.
  - by rewrite clear_exec.
Qed.

Lemma run_single_flight es s : single_flight s -> single_flight (run es s).
Proof.
  revert s. induction es as [|e es IH]; intros s Hs; [done|].
  cbn. by apply IH, step_single_flight.
Qed.

(** C1: at most one inference call is outstanding.  In every state the
    component can reach, at most one call is pending and the busy flag is
    set exactly when one is; a tick that finds the flag set changes nothing
    (no call is issued, none is queued); a tick that finds it clear sets the
    flag and then issues the call, in this order; and when the pending call
    settles, with a reply or with an exception, the flag is cleared, the
    clearing being among the calls logged for that completion. *)
Theorem one_request_outstanding (es : list Event) :
  let s := run es boot in
  length (pending s) ≤ 1 /\
  (isProcessingRef (app s) = true <-> pending s ≠ []) /\
  (forall base64Image,
      isProcessingRef (app s) = true -> step s (Tick base64Image) = s) /\
  (forall base64Image,
      isProcessingRef (app s) = false ->
      let s' := step s (Tick base64Image) in
      isProcessingRef (app s') = true /\
      pending s'
      = [ {| image := base64Image; speak_muted := isMuted (app s) |} ] /\
      calls s' = calls s ++ [SetProcessing true; Translate base64Image]) /\
  (forall n response now d,
      n < length (pending s) ->
      let s' := step s (Settle n response now d) in
      isProcessingRef (app s') = false /\ pending s' = [] /\
      SetProcessing false ∈ drop (length (calls s)) (calls s')).
Proof.
  intros s.
  pose proof (run_single_flight es boot boot_single_flight) as Hs.
  fold s in Hs. unfold single_flight in Hs.
  split; [|split; [|split; [|split]]].
  - destruct (isProcessingRef (app s)).
    + destruct Hs as [r ->]. cbn. lia.
    + rewrite Hs. cbn. lia.
  - destruct (isProcessingRef (app s)).
    + destruct Hs as [r ->]. done.
    + rewrite Hs. split; done.
  - intros img Hb. unfold step. cbn [handle]. rewrite begin_exec. by rewrite Hb.
  - intros img Hb. unfold step. cbn [handle]. rewrite begin_exec. rewrite Hb in Hs |- *.
    cbn. by rewrite Hs.
  - intros n response now d Hn. unfold step. cbn [handle]. rewrite settle_exec.
    destruct (pending s !! n) as [req|] eqn:El.
    + destruct (resume_clears (speak_muted req) response now d
                  {| app := app s; pending := delete n (pending s);
                     calls := calls s |}) as (Hf & Hp & Hc).
      split; [exact Hf|]. split; [|exact Hc].
      rewrite Hp. cbn. destruct (isProcessingRef (app s)).
      * destruct Hs as [r0 Hs]. rewrite Hs in El |- *.
        destruct n; [done|]. by destruct n.
      * by rewrite Hs in El.
    + apply lookup_ge_None in El. lia.
Qed.

(** After one tick a second tick is dropped, and the reply clears the flag. *)
Lemma one_request_outstanding_witness :
  step (run [Tick "frame1"] boot) (Tick "frame2") = run [Tick "frame1"] boot /\
  isProcessingRef
    (app (step (run [Tick "frame1"] boot)
            (Settle 0 (Throw SyntaxError) 0%Z Sample.noon)))
  = false.
Proof.
  destruct (one_request_outstanding [Tick "frame1"])
    as (_ & _ & Hdrop & _ & Hclear).
  split.
  - apply Hdrop. reflexivity.
  - apply Hclear. vm_compute. lia.
Defined.

(** *** The sentence builder *)

Lemma snoc_neq {A} (l : list A) x : l ≠ l ++ [x].
Proof.
  intros E. apply (f_equal length) in E. rewrite length_app in E. cbn in E. lia.
Qed.

Lemma accept_true text confidence (prev : list string) :
  bool_decide (text ≠ "...") && bool_decide (confidence > 60)%Z
    && bool_decide (last prev ≠ Some text) = true
  <-> text ≠ "..." /\ (confidence > 60)%Z /\ last prev ≠ Some text.
Proof.
  rewrite !andb_true_iff, !bool_decide_eq_true. tauto.
Qed.

Lemma resume_sentence muted text confidence now d s :
  sentence
    (app (exec (handleFrameCapture_resume muted (Normal (text, confidence))
                  now d) s))
  = if bool_decide (text ≠ "...") && bool_decide (confidence > 60)%Z
       && bool_decide (last (sentence (app s)) ≠ Some text)
    then sentence (app s) ++ [text]
    else sentence (app s).
Proof. by rewrite resume_exec_normal. Qed.

(** C2 (as the code has it): a reply's label is appended to the sentence,
    and [speak] is called with it, exactly when the label is not ["..."],
    the confidence is above 60 and the label is not the sentence's last
    word; otherwise the sentence is unchanged.  Of two replies ["Hello"] at
    80 in a row the second is never appended; together they add one
    ["Hello"] when the sentence does not already end with ["Hello"], and
    none when it does.  A reply at confidence 40 adds nothing. *)
Theorem sentence_builder (s : System) :
  (forall muted text confidence now d,
      let s' :=
        exec (handleFrameCapture_resume muted (Normal (text, confidence))
                now d) s in
      let accepted :=
        text ≠ "..." /\ (confidence > 60)%Z
        /\ last (sentence (app s)) ≠ Some text in
      (sentence (app s') = sentence (app s) ++ [text] <-> accepted) /\
      (Speak text ∈ drop (length (calls s)) (calls s') <-> accepted) /\
      (muted = false -> text ≠ "" ->
       (SynthSpeak text ∈ drop (length (calls s)) (calls s') <-> accepted)) /\
      (~ accepted -> sentence (app s') = sentence (app s))) /\
  (forall muted1 muted2 now1 now2 d1 d2,
      let s1 :=
        exec (handleFrameCapture_resume muted1 (Normal ("Hello", 80%Z))
                now1 d1) s in
      let s2 :=
        exec (handleFrameCapture_resume muted2 (Normal ("Hello", 80%Z))
                now2 d2) s1 in
      sentence (app s2) = sentence (app s1) /\
      (last (sentence (app s)) ≠ Some "Hello" ->
       sentence (app s2) = sentence (app s) ++ ["Hello"]) /\
      (sentence (app s) = [] -> sentence (app s2) = ["Hello"]) /\
      (last (sentence (app s)) = Some "Hello" ->
       sentence (app s2) = sentence (app s))) /\
  (forall muted text now d,
      sentence
        (app (exec (handleFrameCapture_resume muted (Normal (text, 40%Z))
                      now d) s))
      = sentence (app s)).
Proof.
  split; [|split].
  - intros muted text confidence now d s' accepted. subst s'.
    rewrite resume_exec_normal. cbn.
    rewrite drop_app_length.
    pose proof (accept_true text confidence (sentence (app s))) as Hacc.
    fold accepted in Hacc.
    destruct (bool_decide (text ≠ "...") && bool_decide (confidence > 60)%Z
              && bool_decide (last (sentence (app s)) ≠ Some text)).
    + assert (accepted) as Ha by (by apply Hacc).
      split; [done|]. split; [|split; [|done]].
      * split; [done|]. intros _. apply elem_of_cons. right.
        apply elem_of_cons. by left.
      * intros -> Hne. split; [done|]. intros _. cbn [orb].
        rewrite (bool_decide_eq_false_2 (text = "")) by done.
        rewrite (bool_decide_eq_false_2 (text = "...")) by apply Ha.
        cbn. do 3 (apply elem_of_cons; right). apply elem_of_cons. by left.
    + assert (~ accepted) as Hn by (intros Ha; by apply Hacc in Ha).
      split; [|split; [|split; [|done]]].
      * split; [|done]. intros E. by apply snoc_neq in E.
      * split; [|done]. cbn. intros E. apply list_elem_of_singleton in E.
        discriminate.
      * intros _ _. split; [|done]. cbn. intros E.
        apply list_elem_of_singleton in E. discriminate.
  - intros muted1 muted2 now1 now2 d1 d2. cbv zeta.
    rewrite !resume_sentence. cbn [andb].
    rewrite !(bool_decide_eq_true_2 ("Hello" ≠ "...")) by done.
    rewrite !(bool_decide_eq_true_2 (80 > 60)%Z) by done. cbn [andb].
    destruct (bool_decide (last (sentence (app s)) ≠ Some "Hello")) eqn:Hl.
    + rewrite last_snoc. rewrite bool_decide_eq_false_2 by (intros H; by apply H).
      apply bool_decide_eq_true in Hl.
      split; [done|]. split; [done|]. split; [by intros ->|].
      intros E. by destruct Hl.
    + rewrite Hl. split; [done|].
      apply bool_decide_eq_false in Hl. split; [|split; [|done]].
      * intros Hne. by destruct Hl.
      * intros E. rewrite E in Hl. by destruct Hl.
  - intros muted text now d. rewrite resume_exec_normal. cbn.
    by rewrite andb_false_r.
Qed.

(** C2 (as the claim has it) fails on a sentence that already ends with
    ["Hello"]: after one accepted ["Hello"], two more replies ["Hello"] at
    80 add no entry, not one. *)
Lemma hello_twice_adds_none :
  let s :=
    run [Tick "frame0"; Settle 0 (Normal ("Hello", 80%Z)) 0%Z Sample.noon]
      boot in
  let s2 :=
    run [Tick "frame1"; Settle 0 (Normal ("Hello", 80%Z)) 1%Z Sample.noon;
         Tick "frame2"; Settle 0 (Normal ("Hello", 80%Z)) 2%Z Sample.noon] s in
  sentence (app s) = ["Hello"] /\
  sentence (app s2) = ["Hello"] /\
  sentence (app s2) ≠ sentence (app s) ++ ["Hello"].
Proof. repeat split; try reflexivity. discriminate. Qed.

(** From the empty sentence, ["Hello"] at 80 twice leaves one ["Hello"]. *)
Lemma sentence_builder_witness :
  sentence
    (app (exec (handleFrameCapture_resume false (Normal ("Hello", 80%Z))
                  2%Z Sample.noon)
            (exec (handleFrameCapture_resume false (Normal ("Hello", 80%Z))
                     1%Z Sample.noon) boot)))
  = ["Hello"].
Proof.
  destruct (sentence_builder boot) as (_ & Hhello & _).
  apply (Hhello false false 1%Z 2%Z Sample.noon Sample.noon).
  reflexivity.
Defined.

(** *** The confidence history *)

Lemma resume_history muted response now d s :
  confidenceHistory
    (app (exec (handleFrameCapture_resume muted response now d) s))
  = match response with
    | Normal (_, confidence) => slide d confidence (confidenceHistory (app s))
    | Throw _ => confidenceHistory (app s)
    end.
Proof.
  destruct response as [[text confidence]|e].
  - by rewrite resume_exec_normal.
  - by rewrite resume_exec_throw.
Qed.

Lemma step_history_length s e :
  length (confidenceHistory (app s)) = 10 ->
  length (confidenceHistory (app (step s e))) = 10.
Proof.
  intros Hs. unfold step. destruct e as [img|n r now d| | |]; cbn [handle].
  - rewrite begin_exec. by destruct (isProcessingRef (app s)).
  - rewrite settle_exec. destruct (pending s !! n) as [req|]; [|done].
    rewrite resume_history. cbn. destruct r as [[text confidence]|e]; [|done].
    rewrite slide_length; [done|]. intros E. by rewrite E in Hs.
  - rewrite toggle_exec. cbn. by destruct (isActive (app s)).
  - by rewrite mute_exec.
  - by rewrite clear_exec.
Qed.

Lemma run_history_length es s :
  length (confidenceHistory (app s)) = 10 ->
  length (confidenceHistory (app (run es s))) = 10.
Proof.
  revert s. induction es as [|e es IH]; intros s Hs; [done|].
  cbn. by apply IH, step_history_length.
Qed.

(** The history is what remains of the old history followed by the new
    points after dropping as many points as were added. *)
Lemma process_history muted arrivals s :
  confidenceHistory (app s) ≠ [] ->
  confidenceHistory (app (process muted arrivals s))
  = drop (length (omap point_of arrivals))
      (confidenceHistory (app s) ++ omap point_of arrivals).
Proof.
  revert s. induction arrivals as [|a arrivals IH]; intros s Hne.
  - cbn. by rewrite app_nil_r.
  - rewrite process_cons.
    assert (confidenceHistory
              (app (exec (handleFrameCapture_resume muted (response a) (now a)
                            (date a)) s)) ≠ []) as Hne'.
    { rewrite resume_history. destruct (response a) as [[t c]|e]; [|done].
      unfold slide. intros E. by apply app_nil in E as [_ ?]. }
    rewrite (IH _ Hne'), resume_history. cbn. unfold point_of.
    destruct (response a) as [[t c]|e]; [|done]. cbn.
    destruct (confidenceHistory (app s)) as [|x h]; [done|].
    unfold slide. cbn. by rewrite <- app_assoc.
Qed.

(** C4: the confidence history is a sliding window of ten points.  It has
    ten points in every state the component can reach; every reply, accepted
    into the sentence or not, drops the oldest point and appends one; so
    after ten replies the first reply's point is the oldest one left, and
    the eleventh reply removes it. *)
Theorem history_window (es : list Event) :
  length (confidenceHistory (app (run es boot))) = 10 /\
  length (confidenceHistory (app (run es boot))) ≤ 10 /\
  (forall muted text confidence now d s,
      confidenceHistory
        (app (exec (handleFrameCapture_resume muted (Normal (text, confidence))
                      now d) s))
      = drop 1 (confidenceHistory (app s))
        ++ [ {| ChartDataPoint.name := formatTime d;
                ChartDataPoint.confidence := confidence |} ]) /\
  (forall muted arrivals s,
      length (confidenceHistory (app s)) = 10 ->
      length (confidenceHistory (app (process muted arrivals s))) = 10) /\
  (forall muted first rest p1 s,
      length (confidenceHistory (app s)) = 10 ->
      point_of first = Some p1 ->
      length (omap point_of rest) = 9 ->
      confidenceHistory (app (process muted (first :: rest) s))
      = p1 :: omap point_of rest) /\
  (forall muted first rest p1 s,
      length (confidenceHistory (app s)) = 10 ->
      point_of first = Some p1 ->
      length (omap point_of rest) = 10 ->
      confidenceHistory (app (process muted (first :: rest) s))
      = omap point_of rest).
Proof.
  split; [by apply run_history_length|].
  split; [by rewrite run_history_length|].
  split; [intros; by rewrite resume_history|].
  assert (forall s, length (confidenceHistory (app s)) = 10 ->
                    confidenceHistory (app s) ≠ []) as Hne.
  { intros s Hs E. by rewrite E in Hs. }
  split; [|split].
  - intros muted arrivals s Hs. rewrite process_history by auto.
    rewrite length_drop, length_app. lia.
  - intros muted first rest p1 s Hs Hp Hr. rewrite process_history by auto.
    cbn [omap list_omap]. rewrite Hp. cbn [length]. rewrite Hr.
    by apply drop_app_length'.
  - intros muted first rest p1 s Hs Hp Hr. rewrite process_history by auto.
    cbn [omap list_omap]. rewrite Hp. cbn [length]. rewrite Hr.
    rewrite cons_middle, app_assoc. apply drop_app_length'.
    rewrite length_app, Hs. reflexivity.
Qed.

(** Eleven replies on the blank history: the first one's point is gone. *)
Lemma history_window_witness :
  confidenceHistory
    (app (process false
            (arrive "A" 90%Z 0%Z Sample.noon
               :: replicate 10 (arrive "B" 70%Z 0%Z Sample.noon)) boot))
  = omap point_of (replicate 10 (arrive "B" 70%Z 0%Z Sample.noon)).
Proof.
  destruct (history_window []) as (_ & _ & _ & _ & _ & Heleven).
  apply (Heleven false _ _
           {| ChartDataPoint.name := "12:00:00";
              ChartDataPoint.confidence := 90%Z |});
    reflexivity.
Defined.


(** C5 (as the code has it): the point appended for a reply carries the
    clock time at which the reply is handled, as HH:MM:SS, with the reply's
    confidence; the reply's label does not enter the history. *)
Theorem history_point_is_time_and_confidence muted text confidence now d s :
  let s' :=
    exec (handleFrameCapture_resume muted (Normal (text, confidence)) now d)
      s in
  last (confidenceHistory (app s'))
  = Some {| ChartDataPoint.name := formatTime d;
            ChartDataPoint.confidence := confidence |} /\
  (forall text',
      confidenceHistory
        (app (exec (handleFrameCapture_resume muted
                      (Normal (text', confidence)) now d) s))
      = confidenceHistory (app s')).
Proof.
  cbv zeta. split.
  - rewrite resume_history. unfold slide. by rewrite last_snoc.
  - intros text'. by rewrite !resume_history.
Qed.

(** C5 (as the claim has it) fails: for the reply ["A"] at 80 handled at
    noon, the appended point is named ["12:00:00"], not ["A"]. *)
Lemma history_point_is_not_labelled :
  let s' :=
    exec (handleFrameCapture_resume false (Normal ("A", 80%Z)) 0%Z
            Sample.noon) boot in
  last (confidenceHistory (app s'))
  = Some {| ChartDataPoint.name := "12:00:00";
            ChartDataPoint.confidence := 80%Z |} /\
  last (confidenceHistory (app s'))
  ≠ Some {| ChartDataPoint.name := "A"; ChartDataPoint.confidence := 80%Z |}.
Proof. split; [reflexivity | discriminate]. Qed.

(** *** Starting and stopping *)

(** C6: [toggleRecording] flips the session flag; when the session was
    inactive it empties the sentence and puts the history back to its
    initial ten points of confidence 0; when the session was active it
    leaves both as they are. *)
Theorem toggle_resets_on_start (s : System) :
  let s' := exec toggleRecording s in
  isActive (app s') = negb (isActive (app s)) /\
  (isActive (app s) = false ->
   sentence (app s') = [] /\
   confidenceHistory (app s') = confidenceHistory initial /\
   confidenceHistory (app s')
   = replicate 10 {| ChartDataPoint.name := "";
                     ChartDataPoint.confidence := 0%Z |}) /\
  (isActive (app s) = true ->
   sentence (app s') = sentence (app s) /\
   confidenceHistory (app s') = confidenceHistory (app s)).
Proof.
  cbv zeta. rewrite toggle_exec. cbn.
  split; [done|]. split; by intros ->.
Qed.

(** Starting a session after one word was recorded. *)
Lemma toggle_resets_on_start_witness :
  sentence
    (app (exec toggleRecording
            (process false [arrive "A" 90%Z 0%Z Sample.noon] boot)))
  = [].
Proof.
  apply (toggle_resets_on_start
           (process false [arrive "A" 90%Z 0%Z Sample.noon] boot)).
  reflexivity.
Defined.

(** *** Repeats *)

(** C7 (as the code has it): for replies A, B, A with A and B different,
    neither of them ["..."] and all three confidences above 60, handled on
    a sentence that does not end with A, all three labels are appended; and
    whatever the sentence ends with, B and the second A are appended after
    what the first A left. *)
Theorem repeat_after_other_is_accepted
    muted (A B : string) cA cB cA' n1 n2 n3 d1 d2 d3 (s : System) :
  A ≠ "..." -> B ≠ "..." -> A ≠ B ->
  (cA > 60)%Z -> (cB > 60)%Z -> (cA' > 60)%Z ->
  let s1 := process muted [arrive A cA n1 d1] s in
  let s3 :=
    process muted [arrive A cA n1 d1; arrive B cB n2 d2; arrive A cA' n3 d3]
      s in
  sentence (app s3) = sentence (app s1) ++ [B; A] /\
  (last (sentence (app s)) ≠ Some A ->
   sentence (app s3) = sentence (app s) ++ [A; B; A]).
Proof.
  intros HA HB HAB HcA HcB HcA'. cbv zeta. unfold arrive.
  rewrite !process_cons, !process_nil. cbn [response now date].
  rewrite !resume_sentence.
  rewrite !(bool_decide_eq_true_2 (A ≠ "...")) by done.
  rewrite !(bool_decide_eq_true_2 (B ≠ "...")) by done.
  rewrite !(bool_decide_eq_true_2 (cA > 60)%Z) by done.
  rewrite !(bool_decide_eq_true_2 (cB > 60)%Z) by done.
  rewrite !(bool_decide_eq_true_2 (cA' > 60)%Z) by done.
  cbn [andb].
  destruct (bool_decide (last (sentence (app s)) ≠ Some A)) eqn:Hl.
  - rewrite last_snoc.
    rewrite (bool_decide_eq_true_2 (Some A ≠ Some B)) by congruence.
    rewrite last_snoc.
    rewrite (bool_decide_eq_true_2 (Some B ≠ Some A)) by congruence.
    split; [by rewrite <- !app_assoc|]. intros _. by rewrite <- !app_assoc.
  - apply bool_decide_eq_false in Hl. apply dec_stable in Hl.
    rewrite Hl.
    rewrite (bool_decide_eq_true_2 (Some A ≠ Some B)) by congruence.
    rewrite last_snoc.
    rewrite (bool_decide_eq_true_2 (Some B ≠ Some A)) by congruence.
    split; [by rewrite <- !app_assoc|]. intros Hne. by destruct Hne.
Qed.

(** On the empty sentence, A, B, A gives three entries. *)
Lemma repeat_after_other_is_accepted_witness :
  sentence
    (app (process false
            [arrive "A" 90%Z 1%Z Sample.noon; arrive "B" 90%Z 2%Z Sample.noon;
             arrive "A" 90%Z 3%Z Sample.noon] boot))
  = ["A"; "B"; "A"].
Proof.
  apply (repeat_after_other_is_accepted false "A" "B" 90 90 90 1 2 3
           Sample.noon Sample.noon Sample.noon boot);
    try discriminate; try reflexivity.
Defined.

(** C7 (as the claim has it) fails when the sentence already ends with A:
    A, B, A then adds two entries, because the first A is a repeat. *)
Lemma repeat_after_other_adds_two :
  let s :=
    run [Tick "frame0"; Settle 0 (Normal ("A", 90%Z)) 0%Z Sample.noon] boot in
  let s3 :=
    run [Tick "frame1"; Settle 0 (Normal ("A", 90%Z)) 1%Z Sample.noon;
         Tick "frame2"; Settle 0 (Normal ("B", 90%Z)) 2%Z Sample.noon;
         Tick "frame3"; Settle 0 (Normal ("A", 90%Z)) 3%Z Sample.noon] s in
  sentence (app s) = ["A"] /\
  sentence (app s3) = ["A"; "B"; "A"] /\
  sentence (app s3) ≠ sentence (app s) ++ ["A"; "B"; "A"].
Proof. repeat split; try reflexivity. discriminate. Qed.

(** *** Muting *)

Lemma filter_synth_speak muted text :
  filter (fun c => is_synth c = false)
    (Speak text ::
       (if muted || bool_decide (text = "") || bool_decide (text = "...")
        then [] else [SynthCancel; SynthSpeak text]))
  = [Speak text].
Proof. by destruct (muted || _ || _). Qed.

Lemma filter_synth_cleared (cs : list Call) :
  filter (fun c => is_synth c = false) (SetProcessing false :: cs)
  = SetProcessing false :: filter (fun c => is_synth c = false) cs.
Proof. reflexivity. Qed.

(** One step keeps two systems alike that differ only in muting. *)
Lemma step_view s1 s2 e : view s1 = view s2 -> view (step s1 e) = view (step s2 e).
Proof.
  intros Hv. injection Hv as Ha Hc Hs Hh Hb Hp Hk.
  unfold step. destruct e as [img|n r now d| | |]; cbn [handle].
  - rewrite !begin_exec, <- Hb. destruct (isProcessingRef (app s1)) eqn:E.
    + unfold view. by rewrite E, <- Hb, Ha, Hc, Hs, Hh, Hp, Hk.
    + unfold view. cbn. rewrite !fmap_app, !filter_app. cbn.
      by rewrite ?Ha, ?Hc, ?Hs, ?Hh, ?Hp, ?Hk.
  - rewrite !settle_exec.
    assert (image <$> pending s1 !! n = image <$> pending s2 !! n) as Hn
      by (by rewrite <- !list_lookup_fmap, Hp).
    destruct (pending s1 !! n) as [req1|], (pending s2 !! n) as [req2|];
      try discriminate.
    + destruct r as [[text confidence]|e].
      * rewrite !resume_exec_normal. unfold view. cbn.
        rewrite ?filter_app, ?list_fmap_delete, ?Ha, ?Hc, ?Hs, ?Hh, ?Hp, ?Hk.
        rewrite !filter_synth_cleared.
        destruct (_ && _ && _); [|done].
        by rewrite !filter_synth_speak.
      * rewrite !resume_exec_throw. unfold view. cbn.
        by rewrite ?filter_app, ?list_fmap_delete, ?Ha, ?Hc, ?Hs, ?Hh, ?Hp, ?Hk.
    + unfold view. by rewrite ?Ha, ?Hc, ?Hs, ?Hh, ?Hb, ?Hp, ?Hk.
  - rewrite !toggle_exec. unfold view. cbn.
    by rewrite ?Ha, ?Hc, ?Hs, ?Hh, ?Hb, ?Hp, ?Hk.
  - rewrite !mute_exec. unfold view. cbn.
    by rewrite ?Ha, ?Hc, ?Hs, ?Hh, ?Hb, ?Hp, ?Hk.
  - rewrite !clear_exec. unfold view. cbn.
    by rewrite ?Ha, ?Hc, ?Hh, ?Hb, ?Hp, ?Hk.
Qed.

Lemma run_view es s1 s2 : view s1 = view s2 -> view (run es s1) = view (run es s2).
Proof.
  revert s1 s2. induction es as [|e es IH]; intros s1 s2 Hv; [done|].
  cbn. by apply IH, step_view.
Qed.

Lemma process_view m1 m2 arrivals s1 s2 :
  view s1 = view s2 ->
  view (process m1 arrivals s1) = view (process m2 arrivals s2).
Proof.
  revert s1 s2. induction arrivals as [|a arrivals IH]; intros s1 s2 Hv; [done|].
  rewrite !process_cons. apply IH.
  injection Hv as Ha Hc Hs Hh Hb Hp Hk.
  destruct (response a) as [[text confidence]|e].
  - rewrite !resume_exec_normal. unfold view. cbn.
    rewrite ?filter_app, ?Ha, ?Hc, ?Hs, ?Hh, ?Hp, ?Hk.
    rewrite !filter_synth_cleared.
    destruct (_ && _ && _); [|done].
    by rewrite !filter_synth_speak.
  - rewrite !resume_exec_throw. unfold view. cbn.
    by rewrite ?filter_app, ?Ha, ?Hc, ?Hs, ?Hh, ?Hp, ?Hk.
Qed.

Lemma process_muted_silent arrivals s :
  filter (fun c => is_synth c = true) (calls (process true arrivals s))
  = filter (fun c => is_synth c = true) (calls s).
Proof.
  revert s. induction arrivals as [|a arrivals IH]; intros s; [done|].
  rewrite process_cons, IH.
  destruct (response a) as [[text confidence]|e].
  - rewrite resume_exec_normal. cbn. rewrite !filter_app.
    destruct (_ && _ && _); cbn; by rewrite app_nil_r.
  - rewrite resume_exec_throw. cbn. rewrite !filter_app. cbn.
    by rewrite app_nil_r.
Qed.

(** C9: muting does not interfere with the sentence or the history.  Two
    systems that differ only in the mute flag, in the copies of it held by
    pending calls and in the calls made on [window.speechSynthesis] still
    differ only in these after any sequence of events; in particular the
    same replies give the same sentence and the same history whether they
    are handled muted or not, and handled muted they make no call on
    [window.speechSynthesis]. *)
Theorem mute_does_not_interfere (es : list Event) (s1 s2 : System) :
  view s1 = view s2 ->
  view (run es s1) = view (run es s2) /\
  sentence (app (run es s1)) = sentence (app (run es s2)) /\
  confidenceHistory (app (run es s1)) = confidenceHistory (app (run es s2)) /\
  (forall arrivals,
      sentence (app (process true arrivals s1))
      = sentence (app (process false arrivals s2)) /\
      confidenceHistory (app (process true arrivals s1))
      = confidenceHistory (app (process false arrivals s2)) /\
      filter (fun c => is_synth c = false) (calls (process true arrivals s1))
      = filter (fun c => is_synth c = false) (calls (process false arrivals s2)) /\
      filter (fun c => is_synth c = true) (calls (process true arrivals s1))
      = filter (fun c => is_synth c = true) (calls s1)).
Proof.
  intros Hv. pose proof (run_view es _ _ Hv) as Hr.
  split; [exact Hr|].
  split; [exact (f_equal view_sentence Hr)|].
  split; [exact (f_equal view_confidenceHistory Hr)|].
  intros arrivals. pose proof (process_view true false arrivals _ _ Hv) as Hp.
  split; [exact (f_equal view_sentence Hp)|].
  split; [exact (f_equal view_confidenceHistory Hp)|].
  split; [exact (f_equal view_calls Hp)|].
  apply process_muted_silent.
Qed.

(** The same events on the booted component, unmuted and muted. *)
Lemma mute_does_not_interfere_witness :
  sentence
    (app (run [Tick "frame1"; Settle 0 (Normal ("A", 90%Z)) 1%Z Sample.noon]
            boot))
  = sentence
      (app (run [Tick "frame1"; Settle 0 (Normal ("A", 90%Z)) 1%Z Sample.noon]
              Sample.muted_boot)).
Proof.
  apply (mute_does_not_interfere
           [Tick "frame1"; Settle 0 (Normal ("A", 90%Z)) 1%Z Sample.noon]
           boot Sample.muted_boot).
  reflexivity.
Defined.

End AppSpec.

(** ** The client's sentinel in the component *)

Module PipelineSpec.
Import Js.

(** C3: the inference client never raises.  Its promise always resolves;
    when the request fails (transport or service error), when the body does
    not parse, when the parsed document is [null], or on any other
    exception in its body, it resolves to the sentinel
    [{ text: "...", confidence: 0 }]; and handling that reply leaves the
    sentence as it was. *)
Theorem client_never_raises
    (generateContent : string -> completion GeminiService.GenerateContentResponse)
    (JSON_parse : string -> completion value) (base64Image : string) :
  let translate :=
    GeminiService.translateSignLanguageFrame generateContent JSON_parse in
  (exists r, translate base64Image = Normal r) /\
  (forall e,
      generateContent (GeminiService.clean base64Image) = Throw e ->
      translate base64Image = Normal GeminiService.sentinel) /\
  (forall resp jsonText e,
      generateContent (GeminiService.clean base64Image) = Normal resp ->
      GeminiService.response_text resp = Some jsonText ->
      JSON_parse jsonText = Throw e ->
      translate base64Image = Normal GeminiService.sentinel) /\
  (forall resp jsonText,
      generateContent (GeminiService.clean base64Image) = Normal resp ->
      GeminiService.response_text resp = Some jsonText ->
      JSON_parse jsonText = Normal Null ->
      translate base64Image = Normal GeminiService.sentinel) /\
  (forall e,
      GeminiService.translate_body generateContent JSON_parse base64Image
      = Throw e ->
      translate base64Image = Normal GeminiService.sentinel) /\
  GeminiService.typed GeminiService.sentinel = Some ("...", 0%Z) /\
  (forall muted now d s,
      App.sentence
        (App.app (App.exec (App.handleFrameCapture_resume muted
                              (Normal ("...", 0%Z)) now d) s))
      = App.sentence (App.app s)) /\
  (forall n now d s,
      App.sentence
        (App.app (App.step s (App.Settle n (Normal ("...", 0%Z)) now d)))
      = App.sentence (App.app s)).
Proof.
  cbv zeta.
  split; [apply GeminiServiceSpec.translate_total|].
  split; [|split; [|split; [|split; [|split; [|split]]]]].
  - intros e Hg. unfold GeminiService.translateSignLanguageFrame,
      GeminiService.translate_body. by rewrite Hg.
  - intros resp jsonText e Hg Ht Hp.
    unfold GeminiService.translateSignLanguageFrame,
      GeminiService.translate_body. rewrite Hg. cbn. rewrite Ht.
    destruct jsonText; [done|]. by rewrite Hp.
  - intros resp jsonText Hg Ht Hp.
    unfold GeminiService.translateSignLanguageFrame,
      GeminiService.translate_body. rewrite Hg. cbn. rewrite Ht.
    destruct jsonText; [done|]. by rewrite Hp.
  - intros e. apply GeminiServiceSpec.translate_caught.
  - reflexivity.
  - intros muted now d s. by rewrite AppSpec.resume_sentence.
  - intros n now d s. unfold App.step. cbn [App.handle].
    rewrite AppSpec.settle_exec. destruct (App.pending s !! n); [|done].
    by rewrite AppSpec.resume_sentence.
Qed.

(** An unreachable service gives the sentinel. *)
Lemma client_never_raises_witness :
  GeminiService.translateSignLanguageFrame Sample.offline Sample.parse_known
    "data:image/jpeg;base64,AAAA"
  = Normal GeminiService.sentinel.
Proof.
  destruct (client_never_raises Sample.offline Sample.parse_known
              "data:image/jpeg;base64,AAAA") as (_ & Hoffline & _).
  apply (Hoffline (TransportError "fetch failed")). reflexivity.
Defined.

End PipelineSpec.

(** ** The camera *)

Module CameraViewSpec.
Import CameraView.

(** The cleanup function never sees the stream that was acquired later. *)
Lemma cleanup_stream_granted mediaStream :
  cleanup_stream (camera_granted mediaStream mount) = None.
Proof. reflexivity. Qed.

Lemma unmount_stops_nothing mediaStream :
  stopped (unmount (camera_granted mediaStream mount)) = [].
Proof. reflexivity. Qed.

(** However the camera request ends, unmounting stops no track. *)
Lemma run_cleanup_stream es st :
  cleanup_stream (run es st) = cleanup_stream st /\
  stopped (run es st) = stopped st.
Proof.
  revert st. induction es as [|e es IH]; intros st; [done|].
  change (run (e :: es) st) with (run es (step st e)).
  destruct (IH (step st e)) as [-> ->]. by destruct e.
Qed.

Lemma unmount_after_run es : stopped (unmount (run es mount)) = [].
Proof.
  unfold unmount. destruct (run_cleanup_stream es mount) as [-> Hs].
  cbn. by rewrite Hs.
Qed.

(** C8 (what the code does): the camera grants a stream with two tracks
    after mount; at unmount the stream is held by the component and [stop]
    has been called on none of its tracks. *)
Theorem unmount_leaves_tracks_running :
  let st := unmount (camera_granted Sample.webcam mount) in
  stream st = Some Sample.webcam /\
  getTracks Sample.webcam = [1; 2] /\
  stopped st = [].
Proof. repeat split. Qed.

End CameraViewSpec.

(** * Further properties *)

(** ** Strings: [formatTime] and the data-URL header *)

Module StringSpec.
Import Js App Observe.

Lemma two_digits_digits n :
  n < 100 ->
  two_digits n
  = String (digit (n / 10)) (String (digit (n mod 10)) EmptyString).
Proof.
  intros Hn.
  assert (forallb
            (fun n => bool_decide
               (two_digits n
                = String (digit (n / 10))
                    (String (digit (n mod 10)) EmptyString)))
            (seq 0 100) = true) as Hall by (vm_compute; reflexivity).
  rewrite forallb_forall in Hall.
  specialize (Hall n). rewrite bool_decide_eq_true in Hall.
  apply Hall, in_seq. lia.
Qed.

Lemma digit_inj a b : a < 10 -> b < 10 -> digit a = digit b -> a = b.
Proof.
  intros Ha Hb E. apply (f_equal nat_of_ascii) in E. unfold digit in E.
  rewrite !nat_ascii_embedding in E by lia. lia.
Qed.

Lemma digits_inj a b :
  a < 100 -> b < 100 ->
  digit (a / 10) = digit (b / 10) -> digit (a mod 10) = digit (b mod 10) ->
  a = b.
Proof.
  intros Ha Hb.
  pose proof (Nat.div_mod_eq a 10) as Da.
  pose proof (Nat.div_mod_eq b 10) as Db.
  pose proof (Nat.mod_upper_bound a 10 ltac:(lia)) as Ma.
  pose proof (Nat.mod_upper_bound b 10 ltac:(lia)) as Mb.
  remember (a / 10) as qa. remember (a mod 10) as ra.
  remember (b / 10) as qb. remember (b mod 10) as rb.
  intros E1 E2.
  apply digit_inj in E1; [|lia..]. apply digit_inj in E2; [|lia..]. lia.
Qed.

(** X1: [formatTime] writes a clock time as [HH:MM:SS]: two decimal digits for
    each of the hours, minutes and seconds, zero-padded, separated by
    colons, eight characters in all. *)
Theorem formatTime_shape (d : Date) :
  getHours d < 24 -> getMinutes d < 60 -> getSeconds d < 60 ->
  formatTime d
  = String (digit (getHours d / 10)) (String (digit (getHours d mod 10))
      (String ":"
      (String (digit (getMinutes d / 10)) (String (digit (getMinutes d mod 10))
      (String ":"
      (String (digit (getSeconds d / 10)) (String (digit (getSeconds d mod 10))
         EmptyString))))))) /\
  String.length (formatTime d) = 8.
Proof.
  intros Hh Hm Hs. unfold formatTime.
  rewrite !two_digits_digits by lia. by cbn.
Qed.

Lemma formatTime_shape_witness :
  String.length
    (formatTime {| getHours := 9; getMinutes := 5; getSeconds := 30 |}) = 8.
Proof.
  apply (formatTime_shape {| getHours := 9; getMinutes := 5; getSeconds := 30 |});
    cbn; lia.
Defined.

(** X2: Two different clock times are written differently. *)
Theorem formatTime_inj (d1 d2 : Date) :
  getHours d1 < 24 -> getMinutes d1 < 60 -> getSeconds d1 < 60 ->
  getHours d2 < 24 -> getMinutes d2 < 60 -> getSeconds d2 < 60 ->
  formatTime d1 = formatTime d2 -> d1 = d2.
Proof.
  intros Hh1 Hm1 Hs1 Hh2 Hm2 Hs2.
  destruct (formatTime_shape d1) as [-> _]; [done..|].
  destruct (formatTime_shape d2) as [-> _]; [done..|].
  intros E. injection E as Eh1 Eh2 Em1 Em2 Es1 Es2.
  destruct d1 as [h1 m1 s1], d2 as [h2 m2 s2].
  cbn [getHours getMinutes getSeconds] in *.
  f_equal; apply digits_inj; (done || lia).
Qed.

Lemma formatTime_inj_witness :
  {| getHours := 9; getMinutes := 5; getSeconds := 30 |}
  = {| getHours := 9; getMinutes := 5; getSeconds := 30 |}.
Proof.
  apply formatTime_inj; cbn; (lia || reflexivity).
Defined.

Lemma strip_prefix_app p s : strip_prefix p (p +:+ s) = Some s.
Proof.
  induction p as [|c p IH]; [by destruct s|].
  change (String c p +:+ s) with (String c (p +:+ s)).
  cbn. by rewrite bool_decide_eq_true_2.
Qed.

Lemma strip_prefix_Some p s r : strip_prefix p s = Some r <-> s = p +:+ r.
Proof.
  split; [|intros ->; apply strip_prefix_app].
  revert s. induction p as [|c p IH]; intros s.
  - destruct s; intros [= <-]; reflexivity.
  - destruct s as [|c' s]; cbn; [done|].
    case_bool_decide as E; [|done]. subst c'. intros H.
    apply IH in H. rewrite H. reflexivity.
Qed.

(** X3: The client removes one data-URL header of an image (png, jpeg or jpg)
    from the front of the frame and nothing else: a frame that starts with
    one of the three headers loses exactly that header, and every other
    frame is sent as it is. *)
Theorem clean_header (base64Image : string) :
  (forall header payload,
      header ∈ headers -> base64Image = header +:+ payload ->
      GeminiService.clean base64Image = payload) /\
  ((forall header payload,
       header ∈ headers -> base64Image ≠ header +:+ payload) ->
   GeminiService.clean base64Image = base64Image) /\
  (exists header,
      (header = "" \/ header ∈ headers) /\
      base64Image = header +:+ GeminiService.clean base64Image).
Proof.
  split; [|split].
  - intros header payload Hin ->. unfold headers in Hin.
    apply elem_of_cons in Hin as [-> | Hin]; [reflexivity|].
    apply elem_of_cons in Hin as [-> | Hin]; [reflexivity|].
    apply list_elem_of_singleton in Hin as ->. reflexivity.
  - intros Hno. unfold GeminiService.clean.
    destruct (strip_prefix "data:image/png;base64," base64Image) as [r|] eqn:E1.
    { apply strip_prefix_Some in E1. exfalso. eapply Hno; [|exact E1].
      unfold headers. apply elem_of_cons. by left. }
    destruct (strip_prefix "data:image/jpeg;base64," base64Image) as [r|] eqn:E2.
    { apply strip_prefix_Some in E2. exfalso. eapply Hno; [|exact E2].
      unfold headers. apply elem_of_cons. right. apply elem_of_cons. by left. }
    destruct (strip_prefix "data:image/jpg;base64," base64Image) as [r|] eqn:E3.
    { apply strip_prefix_Some in E3. exfalso. eapply Hno; [|exact E3].
      unfold headers. do 2 (apply elem_of_cons; right).
      by apply list_elem_of_singleton. }
    reflexivity.
  - unfold GeminiService.clean.
    destruct (strip_prefix "data:image/png;base64," base64Image) as [r|] eqn:E1.
    { apply strip_prefix_Some in E1. eexists. split; [right|exact E1].
      unfold headers. apply elem_of_cons. by left. }
    destruct (strip_prefix "data:image/jpeg;base64," base64Image) as [r|] eqn:E2.
    { apply strip_prefix_Some in E2. eexists. split; [right|exact E2].
      unfold headers. apply elem_of_cons. right. apply elem_of_cons. by left. }
    destruct (strip_prefix "data:image/jpg;base64," base64Image) as [r|] eqn:E3.
    { apply strip_prefix_Some in E3. eexists. split; [right|exact E3].
      unfold headers. do 2 (apply elem_of_cons; right).
      by apply list_elem_of_singleton. }
    exists "". split; [by left|reflexivity].
Qed.

(** The frame a canvas gives as a jpeg data URL is sent without its header. *)
Lemma clean_header_witness :
  GeminiService.clean "data:image/jpeg;base64,/9j/4AAQ" = "/9j/4AAQ".
Proof.
  destruct (clean_header "data:image/jpeg;base64,/9j/4AAQ") as (Hstrip & _).
  apply (Hstrip "data:image/jpeg;base64,").
  - unfold headers. apply elem_of_cons. right. apply elem_of_cons. by left.
  - reflexivity.
Defined.

End StringSpec.

(** ** The inference client on documents that parse *)

Module ClientSpec.
Import Js GeminiService.

Section Client.
Variable generateContent : string -> completion GenerateContentResponse.
Variable JSON_parse : string -> completion value.

Local Abbreviation translate :=
  (translateSignLanguageFrame generateContent JSON_parse).

(** X4: When the service answers with a body that parses to an object, the
    reply is made of that object's [sign] and [confidence] and of nothing
    else in it, each replaced by its default (["..."], [0]) when falsy; so a
    non-empty string [sign] with an integer [confidence] comes back as it
    is, confidence [0] included. *)
Theorem object_document base64Image resp jsonText fields :
  generateContent (clean base64Image) = Normal resp ->
  response_text resp = Some jsonText -> jsonText ≠ "" ->
  JSON_parse jsonText = Normal (Obj fields) ->
  translate base64Image
  = Normal {| text := logical_or (lookup_field "sign" fields) (Str "...");
              confidence :=
                logical_or (lookup_field "confidence" fields) (Num 0) |} /\
  (forall sign n,
      lookup_field "sign" fields = Str sign -> sign ≠ "" ->
      lookup_field "confidence" fields = Num n ->
      exists r, translate base64Image = Normal r /\ typed r = Some (sign, n)).
Proof.
  intros Hg Ht Hne Hp.
  assert (translate base64Image
          = Normal {| text := logical_or (lookup_field "sign" fields) (Str "...");
                      confidence :=
                        logical_or (lookup_field "confidence" fields) (Num 0) |})
    as E.
  { apply GeminiServiceSpec.translate_passed.
    by apply (GeminiServiceSpec.body_parsed _ _ _ resp jsonText (Obj fields)). }
  split; [exact E|].
  intros sign n Hs Hsne Hc. eexists. split; [exact E|].
  unfold typed. cbn. rewrite Hs, Hc. unfold logical_or. cbn.
  rewrite (bool_decide_eq_false_2 (sign = "")) by done. cbn.
  by destruct (n =? 0)%Z eqn:En; [apply Z.eqb_eq in En as ->|].
Qed.

(** X5: A body that parses to something that is neither an object nor [null]
    (a number, a string, a boolean, an array) raises nothing: both fields
    read as [undefined] and the reply is the sentinel. *)
Theorem scalar_document base64Image resp jsonText doc :
  generateContent (clean base64Image) = Normal resp ->
  response_text resp = Some jsonText -> jsonText ≠ "" ->
  JSON_parse jsonText = Normal doc ->
  (forall fields, doc ≠ Obj fields) -> doc ≠ Null -> doc ≠ Undefined ->
  translate base64Image = Normal sentinel.
Proof.
  intros Hg Ht Hne Hp Hobj Hnull Hundef.
  apply GeminiServiceSpec.translate_passed.
  rewrite (GeminiServiceSpec.body_parsed _ _ _ resp jsonText doc
             Undefined Undefined); [done..| |].
  - destruct doc; try done. by destruct (Hobj fields).
  - destruct doc; try done. by destruct (Hobj fields).
Qed.

End Client.

Lemma object_document_witness :
  translateSignLanguageFrame
    (Sample.answering (Some "{sign:A,confidence:90}")) Sample.parse_known
    "frame"
  = Normal {| text := Str "A"; confidence := Num 90 |}.
Proof.
  apply (object_document
           (Sample.answering (Some "{sign:A,confidence:90}"))
           Sample.parse_known "frame"
           {| response_text := Some "{sign:A,confidence:90}" |}
           "{sign:A,confidence:90}"
           [("sign", Str "A"); ("confidence", Num 90)]);
    (reflexivity || discriminate).
Defined.

Lemma scalar_document_witness :
  translateSignLanguageFrame
    (Sample.answering (Some "42")) (fun _ => Normal (Num 42)) "frame"
  = Normal sentinel.
Proof.
  apply (scalar_document
           (Sample.answering (Some "42")) (fun _ => Normal (Num 42)) "frame"
           {| response_text := Some "42" |} "42" (Num 42));
    (reflexivity || discriminate).
Defined.

End ClientSpec.

(** ** The component beyond the claims *)

Module AppExtra.
Import Js App Observe.

(** *** Facts that hold in every state the component can reach *)

Lemma run_cons e es s : run (e :: es) s = run es (step s e).
Proof. reflexivity. Qed.

Lemma run_invariant (P : System -> Prop) :
  (forall s e, P s -> P (step s e)) ->
  forall es s, P s -> P (run es s).
Proof.
  intros Hstep es. induction es as [|e es IH]; intros s Hs; [done|].
  rewrite run_cons. by apply IH, Hstep.
Qed.

Lemma step_settle s n response now d :
  step s (Settle n response now d)
  = match pending s !! n with
    | None => s
    | Some req =>
        exec (handleFrameCapture_resume (speak_muted req) response now d)
          {| app := app s; pending := delete n (pending s); calls := calls s |}
    end.
Proof. unfold step. cbn [handle]. apply AppSpec.settle_exec. Qed.

Lemma no_repeat_nil : no_repeat [].
Proof. intros i x H. by rewrite lookup_nil in H. Qed.

Lemma no_repeat_snoc l x :
  no_repeat l -> last l ≠ Some x -> no_repeat (l ++ [x]).
Proof.
  intros Hl Hx i a Hi Hsi.
  apply lookup_snoc_Some in Hsi as [[Hlt Hsi] | [Hlen ->]].
  - apply lookup_snoc_Some in Hi as [[_ Hi] | [Hlen _]]; [|lia].
    by apply (Hl i a).
  - apply lookup_snoc_Some in Hi as [[_ Hi] | [Hlen' _]]; [|lia].
    apply Hx. rewrite last_lookup, <- Hlen. exact Hi.
Qed.

(** The sentence of a reply, whatever the reply. *)
Lemma resume_sentence_cases muted response now d s :
  let s' := exec (handleFrameCapture_resume muted response now d) s in
  sentence (app s') = sentence (app s) \/
  exists text confidence,
    response = Normal (text, confidence) /\
    text ≠ "..." /\ (confidence > 60)%Z /\
    last (sentence (app s)) ≠ Some text /\
    sentence (app s') = sentence (app s) ++ [text].
Proof.
  destruct response as [[text confidence]|e]; cbv zeta.
  - rewrite AppSpec.resume_sentence.
    destruct (bool_decide (text ≠ "...") && bool_decide (confidence > 60)%Z
              && bool_decide (last (sentence (app s)) ≠ Some text)) eqn:E;
      [|by left].
    right. apply AppSpec.accept_true in E as (?&?&?).
    by exists text, confidence.
  - left. by rewrite AppSpec.resume_exec_throw.
Qed.

(** The sentence after one event: as before, emptied, or one word longer. *)
Lemma step_sentence_cases s e :
  sentence (app (step s e)) = sentence (app s) \/
  sentence (app (step s e)) = [] \/
  exists text,
    text ≠ "..." /\ last (sentence (app s)) ≠ Some text /\
    sentence (app (step s e)) = sentence (app s) ++ [text].
Proof.
  destruct e as [img|n r now d| | |].
  - left. unfold step. cbn [handle]. rewrite AppSpec.begin_exec.
    by destruct (isProcessingRef (app s)).
  - rewrite step_settle. destruct (pending s !! n) as [req|]; [|by left].
    destruct (resume_sentence_cases (speak_muted req) r now d
                {| app := app s; pending := delete n (pending s);
                   calls := calls s |})
      as [E | (text & c & _ & ? & _ & ? & E)].
    + by left.
    + right. right. by exists text.
  - unfold step. cbn [handle]. rewrite AppSpec.toggle_exec. cbn.
    destruct (isActive (app s)); auto.
  - by left.
  - right. by left.
Qed.

(** X6: The sentence never holds the placeholder ["..."] and never holds the
    same word twice in a row, whatever sequence of ticks, replies, failures
    and button presses the component has been through. *)
Theorem sentence_has_no_repeat (es : list Event) :
  no_repeat (sentence (app (run es boot))) /\
  "..." ∉ sentence (app (run es boot)).
Proof.
  apply (run_invariant
           (fun s => no_repeat (sentence (app s)) /\ "..." ∉ sentence (app s)));
    [|split; [apply no_repeat_nil | apply not_elem_of_nil]].
  intros s e [Hr Hd].
  destruct (step_sentence_cases s e) as [-> | [-> | (text & Ht & Hl & ->)]].
  - done.
  - split; [apply no_repeat_nil | apply not_elem_of_nil].
  - split; [by apply no_repeat_snoc|].
    rewrite elem_of_app, list_elem_of_singleton. intros [?|?]; congruence.
Qed.

(** X7: Replies only ever append: the sentence before a batch of replies is a
    prefix of the sentence after it, and the batch adds at most one word
    per reply. *)
Theorem replies_only_append muted (arrivals : list Arrival) (s : System) :
  sentence (app s) `prefix_of` sentence (app (process muted arrivals s)) /\
  length (sentence (app (process muted arrivals s)))
  ≤ length (sentence (app s)) + length arrivals.
Proof.
  revert s. induction arrivals as [|a arrivals IH]; intros s.
  - rewrite AppSpec.process_nil. split; [done|lia].
  - rewrite AppSpec.process_cons.
    destruct (IH (exec (handleFrameCapture_resume muted (response a) (now a)
                          (date a)) s)) as [Hp Hl].
    destruct (resume_sentence_cases muted (response a) (now a) (date a) s)
      as [E | (text & c & _ & _ & _ & _ & E)];
      cbv zeta in E; rewrite E in Hp, Hl.
    + split; [done|]. cbn. lia.
    + split.
      * etrans; [|exact Hp]. by apply prefix_app_r.
      * rewrite length_app in Hl. cbn in *. lia.
Qed.

(** *** The call log *)

(** What a reply adds to the log, with what it does to the sentence. *)
Lemma resume_shape muted response now d s :
  let s' := exec (handleFrameCapture_resume muted response now d) s in
  pending s' = pending s /\
  ((sentence (app s') = sentence (app s) /\
    (calls s' = calls s ++ [SetProcessing false] \/
     calls s' = calls s ++ [ConsoleError; SetProcessing false])) \/
   (exists text,
       sentence (app s') = sentence (app s) ++ [text] /\
       (calls s' = calls s ++ [SetProcessing false; Speak text] \/
        (text ≠ "" /\ text ≠ "..." /\
         calls s'
         = calls s ++ [SetProcessing false; Speak text; SynthCancel;
                       SynthSpeak text])))).
Proof.
  destruct response as [[text confidence]|e]; cbv zeta.
  - rewrite AppSpec.resume_exec_normal. cbn. split; [done|].
    destruct (bool_decide (text ≠ "...") && bool_decide (confidence > 60)%Z
              && bool_decide (last (sentence (app s)) ≠ Some text));
      [|left; split; [done|by left]].
    right. exists text. split; [done|].
    destruct muted; cbn; [by left|].
    case_bool_decide as E1; cbn; [by left|].
    case_bool_decide as E2; cbn; [by left|].
    by right.
  - rewrite AppSpec.resume_exec_throw. cbn. split; [done|].
    left. split; [done|by right].
Qed.

(** What one event adds to the log, with what it does to the pending calls
    and to the sentence. *)
Lemma step_shape s e :
  let s' := step s e in
  (calls s' = calls s /\ pending s' = pending s /\
   (sentence (app s') = sentence (app s) \/ sentence (app s') = [])) \/
  (exists req,
      calls s' = calls s ++ [SetProcessing true; Translate (image req)] /\
      pending s' = pending s ++ [req] /\
      sentence (app s') = sentence (app s)) \/
  (exists n req,
      pending s !! n = Some req /\ pending s' = delete n (pending s) /\
      ((sentence (app s') = sentence (app s) /\
        (calls s' = calls s ++ [SetProcessing false] \/
         calls s' = calls s ++ [ConsoleError; SetProcessing false])) \/
       (exists text,
           sentence (app s') = sentence (app s) ++ [text] /\
           (calls s' = calls s ++ [SetProcessing false; Speak text] \/
            (text ≠ "" /\ text ≠ "..." /\
             calls s'
             = calls s ++ [SetProcessing false; Speak text; SynthCancel;
                           SynthSpeak text]))))).
Proof.
  cbv zeta. destruct e as [img|n r now d| | |].
  - unfold step. cbn [handle]. rewrite AppSpec.begin_exec.
    destruct (isProcessingRef (app s)); [left; auto|].
    right. left. by eexists {| image := img |}.
  - rewrite step_settle. destruct (pending s !! n) as [req|] eqn:En;
      [|left; auto].
    right. right. exists n, req. split; [done|].
    destruct (resume_shape (speak_muted req) r now d
                {| app := app s; pending := delete n (pending s);
                   calls := calls s |}) as [Hp Hrest].
    split; [exact Hp|exact Hrest].
  - left. unfold step. cbn [handle]. rewrite AppSpec.toggle_exec. cbn.
    destruct (isActive (app s)); auto.
  - left. auto.
  - left. cbn. auto.
Qed.

Lemma spoken_app cs1 cs2 : spoken (cs1 ++ cs2) = spoken cs1 ++ spoken cs2.
Proof. apply omap_app. Qed.

(** X8: Every word of the sentence was announced: in every state the component
    can reach, the sentence is the tail end of the list of words [speak] has
    been called with, in the same order. *)
Theorem sentence_was_spoken (es : list Event) :
  sentence (app (run es boot)) `suffix_of` spoken (calls (run es boot)).
Proof.
  apply (run_invariant
           (fun s => sentence (app s) `suffix_of` spoken (calls s)));
    [|done].
  intros s e Hs.
  destruct (step_shape s e)
    as [(-> & _ & [-> | ->])
       | [(req & -> & _ & ->)
         | (n & req & _ & _ &
            [(-> & [-> | ->]) | (text & -> & [-> | (_ & _ & ->)])])]];
    rewrite ?spoken_app; cbn; rewrite ?app_nil_r;
    first [ done | apply suffix_nil | by apply suffix_app ].
Qed.

Lemma cancel_then_speak_app cs1 cs2 :
  cancel_then_speak cs1 -> cancel_then_speak cs2 ->
  cancel_then_speak (cs1 ++ cs2).
Proof.
  intros H1 H2 i text Hi.
  apply lookup_app_Some in Hi as [Hi | [Hlen Hi]].
  - destruct (H1 i text Hi) as (? & ? & j & -> & Hj & Hsj).
    split; [done|]. split; [done|]. exists j.
    split; [done|]. split; by apply lookup_app_l_Some.
  - destruct (H2 _ text Hi) as (? & ? & j & E & Hj & Hsj).
    split; [done|]. split; [done|]. exists (length cs1 + j).
    split; [lia|]. split.
    + rewrite lookup_app_r by lia. by replace (length cs1 + j - length cs1) with j by lia.
    + rewrite lookup_app_r by lia.
      by replace (S (length cs1 + j) - length cs1) with (S j) by lia.
Qed.

Lemma cancel_then_speak_quiet cs :
  Forall (fun c => is_synth c = false) cs -> cancel_then_speak cs.
Proof.
  intros Hq i text Hi. rewrite Forall_lookup in Hq.
  by specialize (Hq i _ Hi).
Qed.

Lemma cancel_then_speak_block text :
  text ≠ "" -> text ≠ "..." ->
  cancel_then_speak
    [SetProcessing false; Speak text; SynthCancel; SynthSpeak text].
Proof.
  intros H1 H2 i t Hi. destruct i as [|[|[|[|i]]]]; try done.
  injection Hi as <-. split; [done|]. split; [done|]. by exists 1.
Qed.

(** X9: The synthesizer is only ever given real words, never the empty string
    and never ["..."], and each time it is given one the call right before
    was the cancelling of the previous utterance, itself right after the
    [speak] of that word. *)
Theorem speech_cancels_first (es : list Event) :
  cancel_then_speak (calls (run es boot)).
Proof.
  apply (run_invariant (fun s => cancel_then_speak (calls s)));
    [|by apply cancel_then_speak_quiet].
  intros s e Hs.
  destruct (step_shape s e)
    as [(-> & _ & _)
       | [(req & -> & _ & _)
         | (n & req & _ & _ &
            [(_ & [-> | ->]) | (text & _ & [-> | (? & ? & ->)])])]];
    first [ done
          | apply cancel_then_speak_app; [done|];
            first [ by apply cancel_then_speak_block
                  | apply cancel_then_speak_quiet; by repeat constructor ] ].
Qed.

Lemma count_cons p c cs :
  count p (c :: cs) = (if p c then 1 else 0) + count p cs.
Proof.
  unfold count. rewrite filter_cons. destruct (p c); by case_decide.
Qed.

Lemma count_app p cs1 cs2 : count p (cs1 ++ cs2) = count p cs1 + count p cs2.
Proof. unfold count. by rewrite filter_app, length_app. Qed.

(** X10: The busy flag is never lost: in every state the component can reach,
    the flag has been set as many times as inference calls were issued, and
    cleared once for each call that is no longer pending. *)
Theorem log_balances (es : list Event) :
  let s := run es boot in
  count (is_set true) (calls s) = count is_translate (calls s) /\
  count is_translate (calls s)
  = count (is_set false) (calls s) + length (pending s).
Proof.
  apply (run_invariant
           (fun s =>
              count (is_set true) (calls s) = count is_translate (calls s) /\
              count is_translate (calls s)
              = count (is_set false) (calls s) + length (pending s)));
    [|done].
  intros s e [H1 H2].
  destruct (step_shape s e)
    as [(-> & -> & _)
       | [(req & -> & -> & _)
         | (n & req & Hn & -> & Hrest)]].
  - done.
  - rewrite !count_app, !count_cons, length_app. cbn. lia.
  - apply lookup_lt_Some in Hn as Hlt.
    assert (length (delete n (pending s)) = length (pending s) - 1) as ->
      by (rewrite length_delete; [done | by eexists]).
    destruct Hrest as [(_ & [-> | ->]) | (text & _ & [-> | (_ & _ & ->)])];
      rewrite !count_app, !count_cons; cbn; lia.
Qed.

(** *** Buttons pressed while a call is in flight *)

Lemma step_toggle s : step s ToggleRecording = exec toggleRecording s.
Proof. reflexivity. Qed.

Lemma settle_accepts_on_empty s n req text confidence now d :
  pending s !! n = Some req -> sentence (app s) = [] ->
  text ≠ "..." -> (confidence > 60)%Z ->
  sentence (app (step s (Settle n (Normal (text, confidence)) now d)))
  = [text].
Proof.
  intros Hn He Ht Hc. rewrite step_settle, Hn, AppSpec.resume_sentence. cbn.
  rewrite He. cbn.
  by rewrite !bool_decide_eq_true_2.
Qed.

(** X11: Stopping the session does not cancel the call in flight: its reply is
    handled as it would have been with the session running, and if the
    session has been started again in between, the reply of the old
    session's call becomes the first word and the first point of the new
    one. *)
Theorem reply_outlives_session s n req text confidence now d :
  pending s !! n = Some req ->
  text ≠ "..." -> (confidence > 60)%Z ->
  let reply := Settle n (Normal (text, confidence)) now d in
  (isActive (app s) = true ->
   sentence (app (step (step s ToggleRecording) reply))
   = sentence (app (step s reply)) /\
   confidenceHistory (app (step (step s ToggleRecording) reply))
   = confidenceHistory (app (step s reply))) /\
  (let s' := step (step (step s ToggleRecording) ToggleRecording) reply in
   sentence (app s') = [text] /\
   confidenceHistory (app s') = slide d confidence blank_history /\
   isActive (app s') = isActive (app s)).
Proof.
  intros Hn Ht Hc. cbv zeta. split.
  - intros Ha. rewrite !step_settle, step_toggle, AppSpec.toggle_exec.
    cbn [pending]. rewrite Hn, Ha.
    by rewrite !AppSpec.resume_sentence, !AppSpec.resume_history.
  - assert (pending (step (step s ToggleRecording) ToggleRecording) !! n
            = Some req) as Hn'
      by (by rewrite !step_toggle, !AppSpec.toggle_exec).
    assert (sentence (app (step (step s ToggleRecording) ToggleRecording)) = []
            /\ confidenceHistory
                 (app (step (step s ToggleRecording) ToggleRecording))
               = blank_history
            /\ isActive (app (step (step s ToggleRecording) ToggleRecording))
               = isActive (app s)) as (Hs & Hh & Ha).
    { rewrite !step_toggle, !AppSpec.toggle_exec. cbn.
      by destruct (isActive (app s)). }
    split; [by apply (settle_accepts_on_empty _ n req)|].
    rewrite step_settle, Hn'. rewrite AppSpec.resume_history.
    rewrite AppSpec.resume_exec_normal. cbn. by rewrite Hh, Ha.
Qed.

Lemma reply_outlives_session_witness :
  sentence
    (app (run [Tick "frame"; ToggleRecording; ToggleRecording;
               Settle 0 (Normal ("A", 90%Z)) 0%Z Sample.noon] boot))
  = ["A"].
Proof.
  apply (reply_outlives_session (step boot (Tick "frame")) 0
           {| image := "frame"; speak_muted := false |} "A" 90%Z 0%Z
           Sample.noon);
    (reflexivity || discriminate).
Defined.

(** X12: Whether a word is spoken is decided by the mute flag at the tick that
    issued the call, not by the flag when the reply arrives: after a tick,
    a press on the mute button and an accepted reply, the word went to the
    synthesizer exactly when the component was unmuted at the tick.  The
    busy flag is cleared before [speak] is called, which happens in the
    render after the reply. *)
Theorem mute_is_read_at_tick s base64Image text confidence now d :
  isProcessingRef (app s) = false -> pending s = [] ->
  text ≠ "..." -> text ≠ "" -> (confidence > 60)%Z ->
  last (sentence (app s)) ≠ Some text ->
  let s' :=
    run [Tick base64Image; ToggleMute;
         Settle 0 (Normal (text, confidence)) now d] s in
  isMuted (app s') = negb (isMuted (app s)) /\
  calls s'
  = calls s
    ++ [SetProcessing true; Translate base64Image; SetProcessing false;
        Speak text]
    ++ (if isMuted (app s) then [] else [SynthCancel; SynthSpeak text]).
Proof.
  intros Hb Hp Ht Hne Hc Hl. cbv zeta.
  rewrite !run_cons. change (run [] ?x) with x.
  rewrite step_settle.
  change (step ?x ToggleMute) with (exec toggleMute x).
  rewrite !AppSpec.mute_exec.
  change (step s (Tick base64Image))
    with (exec (handleFrameCapture_begin base64Image) s).
  rewrite !AppSpec.begin_exec, Hb, Hp.
  cbn [pending app lookup list_lookup Datatypes.app].
  rewrite AppSpec.resume_exec_normal. cbn.
  rewrite !bool_decide_eq_true_2 by done. cbn.
  rewrite (bool_decide_eq_false_2 (text = "")) by done.
  rewrite (bool_decide_eq_false_2 (text = "...")) by done.
  rewrite orb_false_r. split; [done|].
  rewrite <- !app_assoc. by destruct (isMuted (app s)).
Qed.

Lemma mute_is_read_at_tick_witness :
  SynthSpeak "A"
  ∈ calls (run [Tick "frame"; ToggleMute;
                Settle 0 (Normal ("A", 90%Z)) 0%Z Sample.noon] boot).
Proof.
  destruct (mute_is_read_at_tick boot "frame" "A" 90%Z 0%Z Sample.noon)
    as [_ ->]; try (reflexivity || discriminate).
  cbn. do 5 (apply elem_of_cons; right). apply elem_of_cons. by left.
Defined.

(** X13: Pressing start/stop twice always leaves an empty sentence and the blank
    history, with the session flag where it was; a press never touches the
    displayed gesture, the mute flag, the busy flag, the pending calls or
    the log. *)
Theorem restart_clears (s : System) :
  let s1 := exec toggleRecording s in
  let s2 := exec toggleRecording s1 in
  (isActive (app s2) = isActive (app s) /\
   sentence (app s2) = [] /\
   confidenceHistory (app s2) = blank_history) /\
  (currentSign (app s1) = currentSign (app s) /\
   isMuted (app s1) = isMuted (app s) /\
   isProcessingRef (app s1) = isProcessingRef (app s) /\
   pending s1 = pending s /\ calls s1 = calls s).
Proof.
  cbv zeta. rewrite !AppSpec.toggle_exec. cbn.
  by destruct (isActive (app s)).
Qed.

(** *** What the page shows *)


(** X15: The displayed confidence is never [undefined]: in every state the
    component can reach the history has a last point. *)
Theorem shown_confidence_defined (es : list Event) :
  is_Some (shown_confidence (app (run es boot))).
Proof.
  unfold shown_confidence.
  pose proof (AppSpec.run_history_length es boot eq_refl) as Hlen.
  destruct (last (confidenceHistory (app (run es boot)))) as [p|] eqn:E;
    [by eexists|].
  apply last_None in E. by rewrite E in Hlen.
Qed.

(** X16: The repeat filter remembers nothing but the sentence: once the Clear
    button has emptied the sentence, the next reply that is not ["..."] and
    has confidence above 60 is accepted, also when it repeats the word that
    was last before the clearing. *)
Theorem clear_forgets_last_word s n req text confidence now d :
  pending s !! n = Some req ->
  text ≠ "..." -> (confidence > 60)%Z ->
  let s1 := step s ClearSentence in
  sentence (app (step s1 (Settle n (Normal (text, confidence)) now d)))
  = [text] /\
  confidenceHistory (app s1) = confidenceHistory (app s) /\
  currentSign (app s1) = currentSign (app s).
Proof.
  intros Hn Ht Hc. cbv zeta. split; [|done].
  by apply (settle_accepts_on_empty _ n req).
Qed.

Lemma clear_forgets_last_word_witness :
  sentence
    (app (run [Tick "frame1"; Settle 0 (Normal ("A", 90%Z)) 1%Z Sample.noon;
               Tick "frame2"; ClearSentence;
               Settle 0 (Normal ("A", 90%Z)) 2%Z Sample.noon] boot))
  = ["A"].
Proof.
  apply (clear_forgets_last_word
           (run [Tick "frame1"; Settle 0 (Normal ("A", 90%Z)) 1%Z Sample.noon;
                 Tick "frame2"] boot)
           0 {| image := "frame2"; speak_muted := false |} "A" 90%Z 2%Z
           Sample.noon);
    (reflexivity || discriminate).
Defined.

End AppExtra.

(** ** The capture loop's guard *)

Module CameraViewExtra.
Import CameraView.

Lemma run_snoc es e st : run (es ++ [e]) st = step (run es st) e.
Proof. unfold run. by rewrite fold_left_app. Qed.

Lemma capturing_true isActive st :
  capturing isActive st = true
  <-> isActive = true /\ is_Some (stream st) /\ error st = None.
Proof.
  unfold capturing. rewrite !andb_true_iff, !bool_decide_eq_true. tauto.
Qed.

Lemma capturing_false isActive st :
  ~ (isActive = true /\ is_Some (stream st) /\ error st = None) ->
  capturing isActive st = false.
Proof.
  intros H. destruct (capturing isActive st) eqn:E; [|done].
  by apply capturing_true in E.
Qed.

(** X17: The capture loop runs exactly when the session is active and the camera
    request has been granted: never before the request has ended, and never
    after it was denied, whatever the session flag. *)
Theorem capturing_needs_camera (isActive : bool) :
  capturing isActive mount = false /\
  (forall st, capturing isActive (camera_denied st) = false) /\
  (forall mediaStream st,
      capturing isActive (camera_granted mediaStream st) = isActive) /\
  (forall es,
      capturing isActive (run es mount) = true ->
      isActive = true /\
      exists es' mediaStream, es = es' ++ [Granted mediaStream]).
Proof.
  assert (forall mediaStream st,
            capturing isActive (camera_granted mediaStream st) = isActive)
    as Hgranted.
  { intros mediaStream st. destruct isActive.
    - apply capturing_true. cbn. split; [done|]. split; [by eexists|done].
    - apply capturing_false. by intros [? _]. }
  assert (forall st, capturing isActive (camera_denied st) = false)
    as Hdenied.
  { intros st. apply capturing_false. by intros (_ & _ & ?). }
  split; [|split; [exact Hdenied|split; [exact Hgranted|]]].
  - apply capturing_false. intros (_ & [? ?] & _). done.
  - intros es. destruct es as [|e es _] using rev_ind.
    + intros H. apply capturing_true in H as (_ & [? ?] & _). done.
    + rewrite run_snoc. destruct e as [mediaStream|]; cbn [step].
      * rewrite Hgranted. intros ->. split; [done|].
        by exists es, mediaStream.
      * by rewrite Hdenied.
Qed.

Lemma capturing_needs_camera_witness :
  exists es' mediaStream,
    [Granted Sample.webcam] = es' ++ [Granted mediaStream].
Proof.
  destruct (capturing_needs_camera true) as (_ & _ & _ & H).
  apply (H [Granted Sample.webcam]). reflexivity.
Defined.

End CameraViewExtra.

(** ** The page as a whole *)

Module PageSpec.
Import App Observe.

Lemma page_run_cons e es p : Page.run (e :: es) p = Page.run es (Page.step p e).
Proof. reflexivity. Qed.

(** Only a tick that finds the flag clear issues a call. *)
Lemma step_translate_count s e :
  (forall frame, e ≠ Tick frame) ->
  count is_translate (calls (step s e)) = count is_translate (calls s).
Proof.
  intros He. destruct e as [img|n r now d| | |]; [by destruct (He img)|..].
  2: { unfold step. cbn [handle]. by rewrite AppSpec.toggle_exec. }
  2: { unfold step. cbn [handle]. by rewrite AppSpec.mute_exec. }
  2: { unfold step. cbn [handle]. by rewrite AppSpec.clear_exec. }
  rewrite AppExtra.step_settle. destruct (pending s !! n) as [req|]; [|done].
  destruct (AppExtra.resume_shape (speak_muted req) r now d
              {| app := app s; pending := delete n (pending s);
                 calls := calls s |})
    as [_ [(_ & [-> | ->]) | (text & _ & [-> | (_ & _ & ->)])]];
    cbn [calls]; rewrite AppExtra.count_app, !AppExtra.count_cons; cbn; lia.
Qed.

Lemma step_keeps_isActive s e :
  e ≠ ToggleRecording -> isActive (app (step s e)) = isActive (app s).
Proof.
  intros He. destruct e as [img|n r now d| | |]; try done.
  - unfold step. cbn [handle]. rewrite AppSpec.begin_exec.
    by destruct (isProcessingRef (app s)).
  - rewrite AppExtra.step_settle. destruct (pending s !! n) as [req|]; [|done].
    destruct r as [[text confidence]|e].
    + by rewrite AppSpec.resume_exec_normal.
    + by rewrite AppSpec.resume_exec_throw.
Qed.

Lemma run_never_started es p :
  forallb (fun e => negb (Page.is_start e)) es = true ->
  isActive (app (Page.system p)) = false ->
  count is_translate (calls (Page.system (Page.run es p)))
  = count is_translate (calls (Page.system p)).
Proof.
  revert p. induction es as [|e es IH]; intros p Hes Hp; [done|].
  cbn [forallb] in Hes. apply andb_true_iff in Hes as [He Hes].
  rewrite page_run_cons, IH; [|done|].
  - destruct e as [frame|n r now d| | | |c];
      cbn [Page.step Page.on_system Page.system];
      first [ by rewrite Hp | by apply step_translate_count | done ].
  - destruct e as [frame|n r now d| | | |c];
      cbn [Page.step Page.on_system Page.system];
      first [ by rewrite Hp | by rewrite step_keeps_isActive | done ].
Qed.

Lemma run_never_granted es p :
  forallb (fun e => negb (Page.is_granted e)) es = true ->
  CameraView.stream (Page.camera p) = None ->
  count is_translate (calls (Page.system (Page.run es p)))
  = count is_translate (calls (Page.system p)).
Proof.
  revert p. induction es as [|e es IH]; intros p Hes Hp; [done|].
  cbn [forallb] in Hes. apply andb_true_iff in Hes as [He Hes].
  assert (forall b, CameraView.capturing b (Page.camera p) = false) as Hcap.
  { intros b. apply CameraViewExtra.capturing_false. rewrite Hp.
    intros (_ & [? ?] & _). done. }
  rewrite page_run_cons, IH; [|done|].
  - destruct e as [frame|n r now d| | | |c];
      cbn [Page.step Page.on_system Page.system];
      first [ by rewrite Hcap | by apply step_translate_count | done ].
  - destruct e as [frame|n r now d| | | |c];
      cbn [Page.step Page.on_system Page.camera];
      first [ by rewrite Hcap | by destruct c | done ].
Qed.

(** X18: No frame is sent for inference before the user has pressed start and
    the camera has been granted: on a page where either has not happened
    yet, the log holds no inference call. *)
Theorem no_call_before_start_and_camera (es : list Page.Event) :
  forallb (fun e => negb (Page.is_start e)) es = true \/
  forallb (fun e => negb (Page.is_granted e)) es = true ->
  count is_translate (calls (Page.system (Page.run es Page.boot))) = 0.
Proof.
  intros [H | H].
  - by rewrite run_never_started.
  - by rewrite run_never_granted.
Qed.

Lemma no_call_before_start_and_camera_witness :
  count is_translate
    (calls (Page.system
              (Page.run [Page.PressStart; Page.Camera CameraView.Denied;
                         Page.Timer "frame"] Page.boot)))
  = 0.
Proof.
  apply no_call_before_start_and_camera. right. reflexivity.
Defined.

End PageSpec.
